(** * ai-mentor server: a shallow embedding of [server/index.js]

    The server receives two kinds of socket messages.  A [mentor_query] is
    answered by asking a text backend for an explanation with an embedded
    [CAD_PROMPT:] line, turning that line into a mesh (live backend or the
    built-in catalogue) and emitting one [mentor_response].  An
    [execute_code] message runs a script in the module-level vm2 sandbox and
    emits one [execution_result].

    The embedding keeps the source's names.  Asynchronous calls to the
    outside world (the text backend, the mesh backend, the vm2 interpreter)
    are inputs of the model: the handlers are functions of what those calls
    answer. *)

From Stdlib Require Import Ascii String List ZArith Bool Arith Lia.
Import ListNotations.

Set Implicit Arguments.

(** ** JavaScript strings

    A string is the list of its code units.  The model carries the code
    units below 256 (Basic Latin and Latin-1), which is where every literal
    and every pattern of the program lives. *)

Definition jsstring := list ascii.

Definition str (s : string) : jsstring := list_ascii_of_string s.

Definition code (c : ascii) : nat := nat_of_ascii c.

Definition between (lo hi n : nat) : bool := (lo <=? n) && (n <=? hi).

(** [String.prototype.toLowerCase] on one code unit: A-Z, and the Latin-1
    capitals from 192 to 222 except the multiplication sign 215. *)
Definition lower (c : ascii) : ascii :=
  if between 65 90 (code c)
     || (between 192 222 (code c) && negb (code c =? 215))
  then ascii_of_nat (code c + 32)
  else c.

Definition toLowerCase (s : jsstring) : jsstring := map lower s.

(** The canonical form the [i] flag compares, the upper-case letter: a-z,
    and the Latin-1 small letters from 224 to 254 except the division sign
    247.  The code units 181, 223 and 255 have no upper case below 256 and
    stand for themselves. *)
Definition canon (c : ascii) : ascii :=
  if between 97 122 (code c)
     || (between 224 254 (code c) && negb (code c =? 247))
  then ascii_of_nat (code c - 32)
  else c.

(** The class [\s] and [trim]'s white space: TAB, LF, VT, FF, CR, SP, NBSP. *)
Definition is_space (c : ascii) : bool :=
  ((9 <=? code c) && (code c <=? 13)) || (code c =? 32) || (code c =? 160).

(** The line terminators, which [.] does not match: LF and CR. *)
Definition is_line_terminator (c : ascii) : bool :=
  (code c =? 10) || (code c =? 13).

Fixpoint trimStart (s : jsstring) : jsstring :=
  match s with
  | c :: s' => if is_space c then trimStart s' else s
  | [] => []
  end.

Definition trimEnd (s : jsstring) : jsstring := rev (trimStart (rev s)).

Definition trim (s : jsstring) : jsstring := trimEnd (trimStart s).

(** ** The regular expressions of the program

    Each pattern is written as the backtracking matcher it denotes.  A
    matcher is tried at a position and answers what it needs from the match;
    [search] tries the positions from left to right, as [match], [replace]
    and [test] do for a pattern without a sticky position. *)

Module Regex.

(** Leftmost match: the text before the match and the matcher's answer. *)
Fixpoint search (X : Type) (m : jsstring -> option X) (s : jsstring)
  : option (jsstring * X) :=
  match m s with
  | Some x => Some ([], x)
  | None =>
      match s with
      | [] => None
      | c :: s' =>
          match search m s' with
          | Some (pre, x) => Some (c :: pre, x)
          | None => None
          end
      end
  end.

(** A literal, compared exactly: the rest of the text after it. *)
Fixpoint lit (p s : jsstring) : option jsstring :=
  match p, s with
  | [], _ => Some s
  | c :: p', d :: s' => if Ascii.eqb c d then lit p' s' else None
  | _ :: _, [] => None
  end.

(** A literal under the [i] flag. *)
Fixpoint lit_ci (p s : jsstring) : option jsstring :=
  match p, s with
  | [], _ => Some s
  | c :: p', d :: s' =>
      if Ascii.eqb (canon c) (canon d) then lit_ci p' s' else None
  | _ :: _, [] => None
  end.

(** The longest run of characters that [.] matches, and what follows. *)
Fixpoint dot_run (s : jsstring) : jsstring * jsstring :=
  match s with
  | c :: s' =>
      if is_line_terminator c then ([], s)
      else let (run, rest) := dot_run s' in (c :: run, rest)
  | [] => ([], [])
  end.

(** [.+] at the end of a pattern: greedy, at least one character. *)
Definition dot_plus (s : jsstring) : option (jsstring * jsstring) :=
  match dot_run s with
  | ([], _) => None
  | (run, rest) => Some (run, rest)
  end.

(** [\s*] followed by [k]: greedy, giving white space back one character
    at a time while [k] fails. *)
Fixpoint space_star (X : Type) (k : jsstring -> option X) (s : jsstring)
  : option X :=
  match s with
  | c :: s' =>
      if is_space c then
        match space_star k s' with
        | Some x => Some x
        | None => k s
        end
      else k s
  | [] => k []
  end.

(** An alternation of literals under the [i] flag, leftmost alternative
    first. *)
Fixpoint alt_ci (ps : list jsstring) (s : jsstring) : option jsstring :=
  match ps with
  | [] => None
  | p :: ps' =>
      match lit_ci p s with
      | Some rest => Some rest
      | None => alt_ci ps' s
      end
  end.

End Regex.

(** [String.prototype.includes]. *)
Definition includes (s k : jsstring) : bool :=
  match Regex.search (Regex.lit k) s with
  | Some _ => true
  | None => false
  end.

(** ** Errors and JSON values *)

Inductive js_error : Type :=
| TypeError (message : jsstring)
| ReferenceError (message : jsstring)
| Error (message : jsstring).

(** [error.message] *)
Definition error_message (e : js_error) : jsstring :=
  match e with
  | TypeError m => m
  | ReferenceError m => m
  | Error m => m
  end.

(** A computation that returns or throws. *)
Definition throws (A : Type) : Type := (A + js_error)%type.

Definition ret (A : Type) (a : A) : throws A := inl a.
Definition throw (A : Type) (e : js_error) : throws A := inr e.
Definition bind (A B : Type) (c : throws A) (k : A -> throws B) : throws B :=
  match c with
  | inl a => k a
  | inr e => inr e
  end.

Arguments ret {A} a.
Arguments throw {A} e.

Notation "x <- c ;; k" := (bind c (fun x => k))
  (at level 61, c at next level, right associativity).

(** A value parsed from a JSON body.  Numbers are carried as integers, which
    is what the index buffer and every literal of the program hold.  An
    object lists each of its keys once. *)
#[warnings="-register-all"]
Inductive json : Type :=
| JNull
| JBool (b : bool)
| JNum (n : Z)
| JStr (s : jsstring)
| JArr (items : list json)
| JObj (fields : list (jsstring * json)).

Fixpoint jsstring_eqb (a b : jsstring) : bool :=
  match a, b with
  | [], [] => true
  | c :: a', d :: b' => Ascii.eqb c d && jsstring_eqb a' b'
  | _, _ => false
  end.

Fixpoint lookup (A : Type) (k : jsstring) (fields : list (jsstring * A))
  : option A :=
  match fields with
  | [] => None
  | (k', v) :: rest => if jsstring_eqb k k' then Some v else lookup k rest
  end.

(** [v?.k]: [None] is [undefined].  Of the property names the program
    reads here only an object can own one. *)
Definition opt_get (v : option json) (k : jsstring) : option json :=
  match v with
  | Some (JObj fields) => lookup k fields
  | _ => None
  end.

(** Truthiness, as [!v] and [a || b] test it. *)
Definition truthy (v : option json) : bool :=
  match v with
  | None => false
  | Some JNull => false
  | Some (JBool b) => b
  | Some (JNum n) => negb (n =? 0)%Z
  | Some (JStr s) => match s with [] => false | _ => true end
  | Some (JArr _) => true
  | Some (JObj _) => true
  end.

(** [v.flat()] with the default depth 1.  Only an array has the method; on
    any other value the call throws. *)
Definition flat_item (v : json) : list json :=
  match v with
  | JArr items => items
  | _ => [v]
  end.

Definition flat (v : option json) : throws (list json) :=
  match v with
  | Some (JArr items) => ret (flat_map flat_item items)
  | None => throw (TypeError (str "Cannot read properties of undefined (reading 'flat')"))
  | Some JNull => throw (TypeError (str "Cannot read properties of null (reading 'flat')"))
  | Some _ => throw (TypeError (str "flat is not a function"))
  end.

(** ** The mesh and the catalogue of canned meshes *)

Record Mesh : Type := mkMesh {
  vertices : list json;
  indices : list json
}.

(** The mesh invariant of the data model: indices come in triples and each
    one names a point of the vertex buffer (three coordinates per point). *)
Definition index_ok (points : nat) (i : json) : bool :=
  match i with
  | JNum n => (0 <=? n)%Z && (n <? Z.of_nat points)%Z
  | _ => false
  end.

Definition mesh_valid (m : Mesh) : bool :=
  (length (indices m) mod 3 =? 0)
  && forallb (index_ok (length (vertices m) / 3)) (indices m).

(** The object [models]: its entries in the order [Object.keys] lists
    them.  Both canned meshes have empty buffers in the source. *)
Definition models : list (jsstring * Mesh) :=
  [ (str "camera", mkMesh [] []);
    (str "transistor", mkMesh [] []) ].

Definition default_quad : Mesh :=
  mkMesh
    [ JNum (-1); JNum (-1); JNum (-1);  JNum 1; JNum (-1); JNum (-1);
      JNum 1; JNum 1; JNum (-1);  JNum (-1); JNum 1; JNum (-1) ]
    [ JNum 0; JNum 1; JNum 2;  JNum 0; JNum 2; JNum 3 ].

(** [Array.prototype.find] with a callback that may throw. *)
Fixpoint find (A : Type) (p : A -> throws bool) (l : list A)
  : throws (option A) :=
  match l with
  | [] => ret None
  | a :: l' => b <- p a ;; if b then ret (Some a) else find p l'
  end.

(** [prompt.toLowerCase()], where [prompt] is [undefined] ([None]) when the
    caller passes no argument. *)
Definition undefined_toLowerCase : js_error :=
  TypeError (str "Cannot read properties of undefined (reading 'toLowerCase')").

Definition prompt_toLowerCase (prompt : option jsstring) : throws jsstring :=
  match prompt with
  | Some s => ret (toLowerCase s)
  | None => throw undefined_toLowerCase
  end.

(** [mockCadData(prompt)].  The key found among [Object.keys(models)] is
    carried with its entry, so [models[key]] is the entry's mesh. *)
Definition mockCadData (prompt : option jsstring) : throws Mesh :=
  key <- find (fun entry : jsstring * Mesh =>
                 lowered <- prompt_toLowerCase prompt ;;
                 ret (includes lowered (fst entry)))
              models ;;
  match key with
  | Some entry => ret (snd entry)
  | None => ret default_quad
  end.

(** ** The mesh backend: [callZooCAD] *)

(** What [axios.post] answers: a rejection (network error, time-out, a
    status outside 2xx) or a response with its parsed body. *)
Inductive axios_outcome : Type :=
| AxiosRejected (e : js_error)
| AxiosResolved (data : json).

Definition mesh_backend : Type := jsstring -> axios_outcome.

(** The [try] block of [callZooCAD]. *)
Definition callZooCAD_try (zoo : mesh_backend) (prompt : jsstring)
  : throws Mesh :=
  match zoo prompt with
  | AxiosRejected e => throw e
  | AxiosResolved data =>
      let mesh := opt_get (opt_get (Some data) (str "model")) (str "mesh") in
      if negb (truthy (opt_get mesh (str "vertices"))) then
        throw (Error (str "Invalid CAD response format"))
      else
        vs <- flat (opt_get mesh (str "vertices")) ;;
        fs <- flat (opt_get mesh (str "faces")) ;;
        ret (mkMesh vs fs)
  end.

(** [callZooCAD]: the [catch] block logs and returns [null] ([None]). *)
Definition callZooCAD (zoo : mesh_backend) (prompt : jsstring) : option Mesh :=
  match callZooCAD_try zoo prompt with
  | inl mesh => Some mesh
  | inr _ => None
  end.

(** ** The text backend: [callGemini] *)

Record Guidance : Type := mkGuidance {
  guidance : jsstring;
  cadPrompt : jsstring
}.

(** What [startChat], [sendMessage] and [response.text()] answer together:
    one of them throws, or the generated text arrives. *)
Inductive gemini_outcome : Type :=
| GeminiRejected (e : js_error)
| GeminiText (response : jsstring).

Definition text_backend : Type := jsstring -> gemini_outcome.

Definition LF : ascii := ascii_of_nat 10.

Definition instruction (query : jsstring) : jsstring :=
  str "Act as a technical educator. First explain the concept clearly, then provide a CAD generation prompt using this format:"
  ++ [LF]
  ++ str "    CAD_PROMPT: [Detailed description of a 3D model that visualizes key components from your explanation]"
  ++ [LF] ++ str "    " ++ [LF]
  ++ str "    User Query: " ++ query.

Definition marker : jsstring := str "CAD_PROMPT:".

(** [/CAD_PROMPT:\s*(.+)/i]: the capture group and the text after it. *)
Definition cad_section_at (s : jsstring) : option (jsstring * jsstring) :=
  match Regex.lit_ci marker s with
  | Some rest => Regex.space_star Regex.dot_plus rest
  | None => None
  end.

(** [/CAD_PROMPT:.+/i]: the matched run and the text after it. *)
Definition cad_line_at (s : jsstring) : option (jsstring * jsstring) :=
  match Regex.lit_ci marker s with
  | Some rest => Regex.dot_plus rest
  | None => None
  end.

(** [response.match(/CAD_PROMPT:\s*(.+)/i)?.[1]] *)
Definition cadSection (response : jsstring) : option jsstring :=
  match Regex.search cad_section_at response with
  | Some (_, (group1, _)) => Some group1
  | None => None
  end.

(** [response.replace(/CAD_PROMPT:.+/i, '')]: the first match is cut out. *)
Definition replace_cad_line (response : jsstring) : jsstring :=
  match Regex.search cad_line_at response with
  | Some (before, (_, after)) => before ++ after
  | None => response
  end.

(** [a || b] on a string that may be [undefined]. *)
Definition or_else (a : option jsstring) (b : jsstring) : jsstring :=
  match a with
  | Some (c :: s) => c :: s
  | _ => b
  end.

(** The [try] block of [callGemini]. *)
Definition callGemini_try (gem : text_backend) (query : jsstring)
  : throws Guidance :=
  match gem (instruction query) with
  | GeminiRejected e => throw e
  | GeminiText response =>
      ret (mkGuidance
             (trim (replace_cad_line response))
             (or_else (cadSection response)
                      (str "3D model showing: " ++ query)))
  end.

(** [callGemini]: the [catch] block answers the canned guidance. *)
Definition callGemini (gem : text_backend) (query : jsstring) : Guidance :=
  match callGemini_try gem query with
  | inl g => g
  | inr _ =>
      mkGuidance
        (str "I'm having trouble visualizing that. Let me try again...")
        (str "Educational model for: " ++ query)
  end.

(** ** The socket handlers *)

(** A message the server sends on the socket: the event name with the
    fields of its payload. *)
Inductive emitted : Type :=
| mentor_response (guidance : jsstring) (modelData : Mesh)
| execution_result (result : jsstring).

(** [process.env.USE_REAL_CAD === 'true'] *)
Definition use_real_cad (USE_REAL_CAD : option jsstring) : bool :=
  match USE_REAL_CAD with
  | Some v => jsstring_eqb v (str "true")
  | None => false
  end.

(** The [try] block of the [mentor_query] handler, up to the payload it
    hands to [socket.emit].  Every call of [mockCadData] in the handler is
    written without an argument. *)
Definition mentor_query_try (USE_REAL_CAD : option jsstring)
    (gem : text_backend) (zoo : mesh_backend) (query : jsstring)
  : throws emitted :=
  let g := callGemini gem query in
  cadData <- (if use_real_cad USE_REAL_CAD
              then ret (callZooCAD zoo (cadPrompt g))
              else (m <- mockCadData None ;; ret (Some m))) ;;
  modelData <- match cadData with
               | Some mesh => ret mesh
               | None => mockCadData None
               end ;;
  ret (mentor_response (guidance g) modelData).

(** The [catch] block of the handler. *)
Definition mentor_query_catch : throws emitted :=
  modelData <- mockCadData None ;;
  ret (mentor_response (str "System error. Please try again later.") modelData).

(** The handler: the messages it emits, and whether its promise is
    fulfilled or rejected.  A payload is built before [socket.emit] is
    called, so an exception while building it emits nothing. *)
Definition mentor_query (USE_REAL_CAD : option jsstring)
    (gem : text_backend) (zoo : mesh_backend) (query : jsstring)
  : list emitted * throws unit :=
  match mentor_query_try USE_REAL_CAD gem zoo query with
  | inl msg => ([msg], ret tt)
  | inr _ =>
      match mentor_query_catch with
      | inl msg => ([msg], ret tt)
      | inr e => ([], throw e)
      end
  end.

(** [/(process|require|import)/gi.test(code)].  The literal is evaluated
    anew at each call, so the search starts at position 0. *)
Definition denylist : list jsstring :=
  [ str "process"; str "require"; str "import" ].

Definition restricted (code : jsstring) : bool :=
  match Regex.search (Regex.alt_ci denylist) code with
  | Some _ => true
  | None => false
  end.

(** What an [execute_code] request does, in order: a call of
    [codeVm.run], a message on the socket. *)
Inductive effect : Type :=
| Run (code : jsstring)
| Emit (msg : emitted).

(** What a script, or code of the script that the host runs later, can
    throw: an [Error] object with its message, [null], [undefined], or any
    other value. *)
Inductive exception (value : Type) : Type :=
| ErrorObject (e : js_error)
| ThrownNull
| ThrownUndefined
| Thrown (v : value).

Arguments ErrorObject {value} e.
Arguments ThrownNull {value}.
Arguments ThrownUndefined {value}.
Arguments Thrown {value} v.

(** What [await] on a call finds: the value, the exception of a throw or
    of a rejected promise, or a promise that never settles. *)
Inductive settled (value A : Type) : Type :=
| Fulfilled (a : A)
| RejectedWith (e : exception value)
| Pending.

Arguments Fulfilled {value A} a.
Arguments RejectedWith {value A} e.
Arguments Pending {value A}.

(** How a handler ends: it runs to its end, its promise is rejected (an
    exception inside the [catch] block), or it stays suspended at its
    [await]. *)
Inductive completion (value : Type) : Type :=
| Done
| Rejected (e : exception value)
| Suspended.

Arguments Done {value}.
Arguments Rejected {value} e.
Arguments Suspended {value}.

Definition completed (value : Type) (k : completion value) : bool :=
  match k with
  | Done => true
  | _ => false
  end.

Section Sandbox.

(** The vm2 interpreter is not part of the program; the handler is
    written over what it provides.  [context] is the state of the one
    [codeVm] the module creates.  [vm_run] is [await codeVm.run(code)],
    time-out included: it leaves a context and answers a value, an
    exception or a promise that never settles. *)
Variable context : Type.
Variable value : Type.
Variable vm_run : context -> jsstring -> context * settled value value.

(** [typeof result === 'object'], [JSON.stringify(result, null, 2)],
    [result.toString()] and, in the [catch] block, the text of
    [error.message] for a thrown value that is not an [Error] made by the
    host.  The last three can run code of the script ([toJSON],
    [toString], a getter), so they start from a context and leave one, and
    they return a text or throw.  A call that does not return has no
    counterpart here. *)
Variable is_object : value -> bool.
Variable JSON_stringify : context -> value -> context * (jsstring + exception value).
Variable toString : context -> value -> context * (jsstring + exception value).
Variable message_of : context -> value -> context * (jsstring + exception value).

Definition shape (vm : context) (result : value)
  : context * (jsstring + exception value) :=
  if is_object result then JSON_stringify vm result else toString vm result.

(** The [try] block of the [execute_code] handler, up to the text it
    hands to [socket.emit]. *)
Definition execute_code_try (vm : context) (code : jsstring)
  : context * list effect * settled value jsstring :=
  if restricted code then
    (vm, [], RejectedWith (ErrorObject (Error (str "Restricted keywords detected"))))
  else
    let (vm1, result) := vm_run vm code in
    match result with
    | Fulfilled r =>
        let (vm2, text) := shape vm1 r in
        match text with
        | inl t => (vm2, [Run code], Fulfilled t)
        | inr e => (vm2, [Run code], RejectedWith e)
        end
    | RejectedWith e => (vm1, [Run code], RejectedWith e)
    | Pending => (vm1, [Run code], Pending)
    end.

(** The [catch] block: [`Execution Error: ${error.message}`].  Reading
    [message] off [null] or [undefined] throws, and so can reading it off
    a value of the script; the exception leaves the handler with nothing
    emitted. *)
Definition execute_code_catch (vm : context) (error : exception value)
  : context * (jsstring + exception value) :=
  match error with
  | ErrorObject e => (vm, inl (str "Execution Error: " ++ error_message e))
  | ThrownNull =>
      (vm, inr (ErrorObject
                  (TypeError (str "Cannot read properties of null (reading 'message')"))))
  | ThrownUndefined =>
      (vm, inr (ErrorObject
                  (TypeError (str "Cannot read properties of undefined (reading 'message')"))))
  | Thrown v =>
      let (vm', text) := message_of vm v in
      match text with
      | inl m => (vm', inl (str "Execution Error: " ++ m))
      | inr e => (vm', inr e)
      end
  end.

(** The handler, on the module-level [codeVm]: the context it leaves,
    what it did, and how it ended. *)
Definition execute_code (vm : context) (code : jsstring)
  : context * list effect * completion value :=
  let '(vm1, effects, outcome) := execute_code_try vm code in
  match outcome with
  | Fulfilled text => (vm1, effects ++ [Emit (execution_result text)], Done)
  | Pending => (vm1, effects, Suspended)
  | RejectedWith error =>
      let (vm2, text) := execute_code_catch vm1 error in
      match text with
      | inl t => (vm2, effects ++ [Emit (execution_result t)], Done)
      | inr e => (vm2, effects, Rejected e)
      end
  end.

(** The context a request that passes the denylist leaves: the one left
    by the run and then by the host's calls on what the run answered (the
    rendering of a value, the reading of an exception's message). *)
Definition context_after (vm : context) (code : jsstring) : context :=
  let (vm1, result) := vm_run vm code in
  match result with
  | Fulfilled r =>
      let (vm2, text) := shape vm1 r in
      match text with
      | inl _ => vm2
      | inr e => fst (execute_code_catch vm2 e)
      end
  | RejectedWith e => fst (execute_code_catch vm1 e)
  | Pending => vm1
  end.

(** A run of the server: the requests are handled one after the other,
    all of them on the same [codeVm].  A script runs to its end inside
    [codeVm.run], before the handler reaches its [await], so the runs of
    two requests do not interleave.  A handler that is rejected or stays
    suspended does not stop the server from handling the next request. *)
Fixpoint serve (vm : context) (codes : list jsstring)
  : context * list effect :=
  match codes with
  | [] => (vm, [])
  | code :: rest =>
      let '(vm', effects, _) := execute_code vm code in
      let (vm'', effects') := serve vm' rest in
      (vm'', effects ++ effects')
  end.

(** How the handlers of a run ended, request by request. *)
Fixpoint completions (vm : context) (codes : list jsstring)
  : list (completion value) :=
  match codes with
  | [] => []
  | code :: rest =>
      let '(vm', _, k) := execute_code vm code in
      k :: completions vm' rest
  end.

End Sandbox.

(** A fragment of the interpreter, enough to run three scripts: a script
    is one assignment to a global, [x = 41], one read of a global, [x], or
    [throw null].  The name is a single letter and the number a decimal
    numeral of at most 15 digits without a leading zero, so that a number
    prints as it was written. *)
Module MiniVm.

(** The globals of the context, the latest binding first. *)
Definition context : Type := list (ascii * jsstring).

(** [new VM({ sandbox: {} })] *)
Definition empty_sandbox : context := [].

(** A number, as the numeral it prints as. *)
Definition value : Type := jsstring.

Definition is_letter (c : ascii) : bool :=
  (97 <=? code c) && (code c <=? 122).

Definition is_digit (c : ascii) : bool :=
  (48 <=? code c) && (code c <=? 57).

Definition is_numeral (s : jsstring) : bool :=
  match s with
  | [] => false
  | c :: rest =>
      forallb is_digit s && (length s <=? 15)
      && (negb (Ascii.eqb c "0") || match rest with [] => true | _ => false end)
  end.

Fixpoint global (vm : context) (x : ascii) : option value :=
  match vm with
  | [] => None
  | (y, v) :: rest => if Ascii.eqb x y then Some v else global rest x
  end.

Definition outside : exception value :=
  ErrorObject (Error (str "script outside the modelled fragment")).

Definition vm_run (vm : context) (script : jsstring)
  : context * settled value value :=
  if jsstring_eqb script (str "throw null") then (vm, RejectedWith ThrownNull)
  else
  match script with
  | [x] =>
      if is_letter x then
        match global vm x with
        | Some v => (vm, Fulfilled v)
        | None =>
            (vm, RejectedWith
                   (ErrorObject (ReferenceError (x :: str " is not defined"))))
        end
      else (vm, RejectedWith outside)
  | x :: rest =>
      match trimStart rest with
      | eq :: rhs =>
          if is_letter x && Ascii.eqb eq "=" && is_numeral (trimStart rhs)
          then ((x, trimStart rhs) :: vm, Fulfilled (trimStart rhs))
          else (vm, RejectedWith outside)
      | [] => (vm, RejectedWith outside)
      end
  | [] => (vm, RejectedWith outside)
  end.

(** [typeof] of a number is not ['object']; its [toString()] is its
    numeral and runs no code of the script; a number has no [message]. *)
Definition is_object (v : value) : bool := false.
Definition JSON_stringify (vm : context) (v : value)
  : context * (jsstring + exception value) := (vm, inl v).
Definition toString (vm : context) (v : value)
  : context * (jsstring + exception value) := (vm, inl v).
Definition message_of (vm : context) (v : value)
  : context * (jsstring + exception value) := (vm, inl (str "undefined")).

Definition execute_code :=
  execute_code vm_run is_object JSON_stringify toString message_of.
Definition serve :=
  serve vm_run is_object JSON_stringify toString message_of.

End MiniVm.

(** ** Vocabulary of the specification *)

(** [k] occurs in [s] in some letter case. *)
Definition occurs_any_case (k s : jsstring) : Prop :=
  exists pre mid post,
    s = pre ++ mid ++ post /\ toLowerCase mid = toLowerCase k.

(** [data?.model?.mesh?.vertices] and [data.model.mesh.faces] of a body. *)
Definition vertices_of (data : json) : option json :=
  opt_get (opt_get (opt_get (Some data) (str "model")) (str "mesh"))
          (str "vertices").

Definition faces_of (data : json) : option json :=
  opt_get (opt_get (opt_get (Some data) (str "model")) (str "mesh"))
          (str "faces").

(** A point of the backend's vertex array: a row of three coordinates. *)
Definition is_point (row : json) : Prop :=
  exists x y z : json, row = JArr [x; y; z].

(** A face of the backend's face array: three indices into [points] rows. *)
Definition is_face (points : nat) (row : json) : Prop :=
  exists i j k,
    row = JArr [JNum i; JNum j; JNum k]
    /\ (0 <= i < Z.of_nat points)%Z
    /\ (0 <= j < Z.of_nat points)%Z
    /\ (0 <= k < Z.of_nat points)%Z.

(** A blank: white space that does not end the line. *)
Definition is_blank (c : ascii) : bool :=
  is_space c && negb (is_line_terminator c).

(** A text without a line break. *)
Definition on_one_line (s : jsstring) : bool :=
  forallb (fun c => negb (is_line_terminator c)) s.

(** A text that is empty or begins with a line break. *)
Definition at_line_end (s : jsstring) : bool :=
  match s with
  | [] => true
  | c :: _ => is_line_terminator c
  end.

(** ** Reading a run of the server *)

(** The scripts handed to [codeVm.run], in order. *)
Fixpoint runs (effects : list effect) : list jsstring :=
  match effects with
  | [] => []
  | Run code :: rest => code :: runs rest
  | Emit _ :: rest => runs rest
  end.

(** The messages put on the socket, in order. *)
Fixpoint emits (effects : list effect) : list emitted :=
  match effects with
  | [] => []
  | Run _ :: rest => emits rest
  | Emit msg :: rest => msg :: emits rest
  end.

(** A request the denylist lets through. *)
Definition accepted (code : jsstring) : bool := negb (restricted code).

(** The message a request stopped by the denylist is answered with. *)
Definition rejection : emitted :=
  execution_result (str "Execution Error: Restricted keywords detected").

(** A value that [flat()] leaves in place: anything but an array. *)
Definition is_scalar (v : json) : bool :=
  match v with
  | JArr _ => false
  | _ => true
  end.

(** ** The client: [client/src/App.js]

    The state the socket handlers of the components write: the mentor
    pane's message, the model handed to the viewer ([null] until a response
    arrives) and the execution pane's result. *)
Module Client.

Record state : Type := mkState {
  mentorMessage : jsstring;
  modelData : option Mesh;
  result : jsstring
}.

(** The [useState] initial values. *)
Definition initial : state :=
  mkState (str "Awaiting mentor response...") None [].

(** [handleMentorResponse] *)
Definition handleMentorResponse (guidance : jsstring) (mesh : Mesh)
    (st : state) : state :=
  mkState guidance (Some mesh) (result st).

(** [handleExecutionResult] *)
Definition handleExecutionResult (text : jsstring) (st : state) : state :=
  mkState (mentorMessage st) (modelData st) text.

(** A message arriving on the socket goes to the handler registered for
    its event name. *)
Definition deliver (st : state) (msg : emitted) : state :=
  match msg with
  | mentor_response guidance mesh => handleMentorResponse guidance mesh st
  | execution_result text => handleExecutionResult text st
  end.

(** [sendMentorQuery] and what comes back: the query goes to the server's
    handler and the messages it emits are delivered. *)
Definition ask (USE_REAL_CAD : option jsstring)
    (gem : text_backend) (zoo : mesh_backend)
    (st : state) (query : jsstring) : state :=
  fold_left deliver (fst (mentor_query USE_REAL_CAD gem zoo query)) st.

End Client.

(** ** Sample inputs *)

(** A response body of the mesh backend, [{ model: { mesh: { vertices,
    faces } } }]. *)
Definition mesh_body (vertices faces : json) : json :=
  JObj [ (str "model",
          JObj [ (str "mesh",
                  JObj [ (str "vertices", vertices);
                         (str "faces", faces) ]) ]) ].

(** A triangle whose face counts its points from 1. *)
Definition one_based_triangle : json :=
  mesh_body
    (JArr [ JArr [JNum 0; JNum 0; JNum 0];
            JArr [JNum 1; JNum 0; JNum 0];
            JArr [JNum 0; JNum 1; JNum 0] ])
    (JArr [ JArr [JNum 1; JNum 2; JNum 3] ]).

(** The same triangle, counted from 0. *)
Definition zero_based_triangle : json :=
  mesh_body
    (JArr [ JArr [JNum 0; JNum 0; JNum 0];
            JArr [JNum 1; JNum 0; JNum 0];
            JArr [JNum 0; JNum 1; JNum 0] ])
    (JArr [ JArr [JNum 0; JNum 1; JNum 2] ]).

(** A body with no points and no faces. *)
Definition empty_shape : json := mesh_body (JArr []) (JArr []).

(** A backend that is down. *)
Definition unreachable : mesh_backend :=
  fun _ => AxiosRejected (Error (str "connect ECONNREFUSED")).

Definition offline : text_backend :=
  fun _ => GeminiRejected (Error (str "fetch failed")).

(** A generated text with its marker line in the middle. *)
Definition gears_text : jsstring :=
  str "Gears mesh." ++ [LF] ++ str "Cad_Prompt:  two gears " ++ [LF]
  ++ str "Ask more.".

(** * Properties *)

(** ** Letter case *)

Lemma lower_canon (c : ascii) : lower (canon c) = lower c.
Proof. destruct c as [[] [] [] [] [] [] [] []]; reflexivity. Qed.

Lemma canon_lower (c : ascii) : canon (lower c) = canon c.
Proof. destruct c as [[] [] [] [] [] [] [] []]; reflexivity. Qed.

Lemma canon_eq_iff_lower_eq (c d : ascii) :
  canon c = canon d <-> lower c = lower d.
Proof.
  split; intros H.
  - rewrite <- (lower_canon c), <- (lower_canon d), H. reflexivity.
  - rewrite <- (canon_lower c), <- (canon_lower d), H. reflexivity.
Qed.

Lemma map_canon_eq_iff (a b : jsstring) :
  map canon a = map canon b <-> toLowerCase a = toLowerCase b.
Proof.
  unfold toLowerCase. revert b.
  induction a as [|c a IH]; intros [|d b]; simpl; split; intros H;
    try reflexivity; try discriminate;
    injection H as Hc Hr; f_equal;
    solve [ now apply canon_eq_iff_lower_eq | now apply IH ].
Qed.

(** ** The matchers *)

Section SearchFacts.

Variable X : Type.
Variable m : jsstring -> option X.

(** A match somewhere makes the search succeed. *)
Lemma search_some_of_match (pre s : jsstring) (x : X) :
  m s = Some x -> exists pre' x', Regex.search m (pre ++ s) = Some (pre', x').
Proof.
  intros Hm. induction pre as [|c pre IH]; simpl.
  - destruct s; simpl; rewrite Hm; eauto.
  - destruct (m (c :: pre ++ s)); eauto.
    destruct IH as (pre' & x' & ->). eauto.
Qed.

(** The search fails exactly when the matcher fails at every position. *)
Lemma search_none_iff (s : jsstring) :
  Regex.search m s = None <-> forall pre post, s = pre ++ post -> m post = None.
Proof.
  induction s as [|c s IH]; simpl.
  - split.
    + intros H pre post E. symmetry in E. apply app_eq_nil in E as [_ ->].
      destruct (m []); [discriminate | reflexivity].
    + intros H. rewrite (H [] [] eq_refl). reflexivity.
  - split.
    + intros H pre post E.
      destruct (m (c :: s)) eqn:Hm; [discriminate|].
      destruct pre as [|c' pre]; simpl in E.
      * subst post. exact Hm.
      * injection E as _ E.
        destruct (Regex.search m s) as [[? ?]|] eqn:Hs; [discriminate|].
        apply (proj1 IH eq_refl pre post E).
    + intros H. rewrite (H [] (c :: s) eq_refl).
      assert (Hs : Regex.search m s = None).
      { apply IH. intros pre post E. apply (H (c :: pre) post).
        simpl. now rewrite E. }
      now rewrite Hs.
Qed.

(** The leftmost match is the first position where the matcher
    succeeds. *)
Lemma search_first (pre s : jsstring) (x : X) :
  (forall a b, pre = a ++ b -> b <> [] -> m (b ++ s) = None) ->
  m s = Some x ->
  Regex.search m (pre ++ s) = Some (pre, x).
Proof.
  intros Hpre Hm. induction pre as [|c pre IH]; simpl.
  - destruct s; simpl; now rewrite Hm.
  - assert (H0 : m (c :: pre ++ s) = None).
    { apply (Hpre [] (c :: pre) eq_refl). discriminate. }
    rewrite H0, IH; [reflexivity|].
    intros a b E Hb. apply (Hpre (c :: a) b); [simpl; now rewrite E | exact Hb].
Qed.

(** A successful search names a position where the matcher succeeds. *)
Lemma search_some_inv (s pre : jsstring) (x : X) :
  Regex.search m s = Some (pre, x) ->
  exists post, s = pre ++ post /\ m post = Some x.
Proof.
  revert pre. induction s as [|c s IH]; simpl; intros pre H.
  - destruct (m []) eqn:Hm; [|discriminate].
    injection H as <- <-. now exists [].
  - destruct (m (c :: s)) eqn:Hm.
    + injection H as <- <-. now exists (c :: s).
    + destruct (Regex.search m s) as [[pre' x']|] eqn:Hs; [|discriminate].
      injection H as <- <-.
      destruct (IH pre' eq_refl) as (post & -> & Hp).
      now exists post.
Qed.

End SearchFacts.

Lemma lit_some_iff (k s rest : jsstring) :
  Regex.lit k s = Some rest <-> s = k ++ rest.
Proof.
  revert s. induction k as [|c k IH]; intros s; simpl.
  - split; [now intros [= ->] | now intros ->].
  - destruct s as [|d s]; [split; discriminate|].
    destruct (Ascii.eqb_spec c d) as [->|Hne].
    + rewrite IH. split; [now intros -> | now intros [= ->]].
    + split; [discriminate | intros [= E _]; now elim Hne].
Qed.

Lemma lit_ci_some_iff (p s rest : jsstring) :
  Regex.lit_ci p s = Some rest <->
  exists mid, s = mid ++ rest /\ map canon mid = map canon p.
Proof.
  revert s. induction p as [|c p IH]; intros s; simpl.
  - split.
    + intros [= ->]. now exists [].
    + intros ([|? ?] & -> & E); [reflexivity | discriminate].
  - destruct s as [|d s].
    + split; [discriminate|].
      intros ([|? ?] & E1 & E2); discriminate.
    + destruct (Ascii.eqb_spec (canon c) (canon d)) as [Hcd|Hne].
      * rewrite IH. split.
        -- intros (mid & -> & E). exists (d :: mid). simpl.
           now rewrite E, Hcd.
        -- intros ([|d' mid] & E1 & E2); [discriminate|].
           simpl in E1, E2. injection E1 as -> ->. injection E2 as _ E2.
           now exists mid.
      * split; [discriminate|].
        intros ([|d' mid] & E1 & E2); [discriminate|].
        simpl in E1, E2. injection E1 as -> _. injection E2 as E2 _.
        now elim Hne.
Qed.

Lemma occurs_any_case_lower (k s : jsstring) :
  toLowerCase k = k ->
  (includes (toLowerCase s) k = true <-> occurs_any_case k s).
Proof.
  intros Hk. unfold includes, occurs_any_case. rewrite Hk. split.
  - destruct (Regex.search (Regex.lit k) (toLowerCase s)) as [[pre rest]|] eqn:Hs;
      [intros _ | discriminate].
    apply search_some_inv in Hs as (post' & E & Hl).
    apply lit_some_iff in Hl. subst post'.
    unfold toLowerCase in E.
    apply map_eq_app in E as (a & b & -> & Ea & Eb).
    apply map_eq_app in Eb as (mid & post & -> & Em & Ep).
    exists a, mid, post. now split.
  - intros (pre & mid & post & -> & Em).
    unfold toLowerCase. rewrite !map_app. fold (toLowerCase mid). rewrite Em.
    destruct (@search_some_of_match _ (Regex.lit k) (map lower pre)
                (k ++ map lower post) (map lower post)) as (pre' & x' & ->).
    + now apply lit_some_iff.
    + reflexivity.
Qed.

(** ** The catalogue of canned meshes *)

Lemma mockCadData_of_string (s : jsstring) :
  mockCadData (Some s) =
  if includes (toLowerCase s) (str "camera") then inl (mkMesh [] [])
  else if includes (toLowerCase s) (str "transistor") then inl (mkMesh [] [])
  else inl default_quad.
Proof.
  unfold mockCadData, str. simpl.
  destruct (includes (toLowerCase s) _); [reflexivity|].
  now destruct (includes (toLowerCase s) _).
Qed.

(** C9. The catalogue lookup returns a mesh for every string; a string
    with "camera" in any letter case gets the camera entry; a string with
    none of the catalogue's keywords gets the default quad, which has 12
    coordinates (4 points) and 6 indices (2 triangles). *)
Theorem C9_mock_catalog_lookup (s : jsstring) :
  (exists m, mockCadData (Some s) = inl m)
  /\ (occurs_any_case (str "camera") s ->
      exists m, lookup (str "camera") models = Some m
                /\ mockCadData (Some s) = inl m)
  /\ ((forall k, In k (map fst models) -> ~ occurs_any_case k s) ->
      mockCadData (Some s) = inl default_quad)
  /\ length (vertices default_quad) = 4 * 3
  /\ length (indices default_quad) = 2 * 3.
Proof.
  rewrite mockCadData_of_string. repeat split.
  - destruct (includes _ (str "camera")); [eauto|].
    destruct (includes _ (str "transistor")); eauto.
  - intros H. apply occurs_any_case_lower in H; [|reflexivity].
    rewrite H. exists (mkMesh [] []). now split.
  - intros H.
    destruct (includes (toLowerCase s) (str "camera")) eqn:Hc.
    { apply occurs_any_case_lower in Hc; [|reflexivity].
      elim (H (str "camera")); [simpl; auto | exact Hc]. }
    destruct (includes (toLowerCase s) (str "transistor")) eqn:Ht.
    { apply occurs_any_case_lower in Ht; [|reflexivity].
      elim (H (str "transistor")); [simpl; auto | exact Ht]. }
    reflexivity.
Qed.

Lemma C9_mock_catalog_lookup_witness :
  mockCadData (Some (str "A vintage CaMeRa body")) = inl (mkMesh [] [])
  /\ mockCadData (Some (str "a gear train")) = inl default_quad.
Proof.
  split.
  - destruct (C9_mock_catalog_lookup (str "A vintage CaMeRa body"))
      as (_ & H & _).
    destruct H as (m & Hm & ->).
    + exists (str "A vintage "), (str "CaMeRa"), (str " body"). now split.
    + simpl in Hm. now injection Hm as <-.
  - destruct (C9_mock_catalog_lookup (str "a gear train"))
      as (_ & _ & H & _).
    apply H. intros k Hk Hocc.
    apply occurs_any_case_lower in Hocc.
    + simpl in Hk. destruct Hk as [<-|[<-|[]]]; vm_compute in Hocc; discriminate.
    + simpl in Hk. now destruct Hk as [<-|[<-|[]]].
Defined.

(** ** The mesh backend *)

Lemma flat_points (rows : list json) :
  Forall is_point rows -> length (flat_map flat_item rows) = 3 * length rows.
Proof.
  induction 1 as [|row rows (x & y & z & ->) _ IH]; simpl; [reflexivity|].
  rewrite IH. lia.
Qed.

Lemma flat_faces (points : nat) (rows : list json) :
  Forall (is_face points) rows ->
  length (flat_map flat_item rows) = 3 * length rows
  /\ forallb (index_ok points) (flat_map flat_item rows) = true.
Proof.
  induction 1 as [|row rows (i & j & k & -> & Hi & Hj & Hk) _ [IHl IHf]];
    simpl; [now split|].
  split; [rewrite IHl; lia|].
  rewrite IHf.
  replace (0 <=? i)%Z with true by (symmetry; apply Z.leb_le; lia).
  replace (0 <=? j)%Z with true by (symmetry; apply Z.leb_le; lia).
  replace (0 <=? k)%Z with true by (symmetry; apply Z.leb_le; lia).
  replace (i <? Z.of_nat points)%Z with true by (symmetry; apply Z.ltb_lt; lia).
  replace (j <? Z.of_nat points)%Z with true by (symmetry; apply Z.ltb_lt; lia).
  replace (k <? Z.of_nat points)%Z with true by (symmetry; apply Z.ltb_lt; lia).
  reflexivity.
Qed.

(** What [callZooCAD] does with a body, by the value of its vertex field. *)
Lemma callZooCAD_resolved (zoo : mesh_backend) (prompt : jsstring) (data : json) :
  zoo prompt = AxiosResolved data ->
  callZooCAD zoo prompt =
  match vertices_of data with
  | Some (JArr vrows) =>
      match faces_of data with
      | Some (JArr frows) =>
          Some (mkMesh (flat_map flat_item vrows) (flat_map flat_item frows))
      | _ => None
      end
  | _ => None
  end.
Proof.
  intros Hz. unfold callZooCAD, callZooCAD_try. rewrite Hz.
  fold (vertices_of data). fold (faces_of data).
  destruct (vertices_of data) as [[| [] | n | [|? ?] | vrows | fields]|];
    simpl; try reflexivity.
  - now destruct (n =? 0)%Z.
  - now destruct (faces_of data) as [[]|].
Qed.

(** C10, as amended.  Every mesh of the catalogue keeps the invariant
    (indices in triples, each below the number of points).  The live path
    flattens what the backend sent without checking it: its mesh keeps the
    invariant when the vertex rows are points of three coordinates and the
    faces are triples of indices below the number of rows. *)
Theorem C10_mesh_invariant :
  (forall s m, mockCadData (Some s) = inl m -> mesh_valid m = true)
  /\ (forall (zoo : mesh_backend) prompt data vrows frows,
        zoo prompt = AxiosResolved data ->
        vertices_of data = Some (JArr vrows) ->
        faces_of data = Some (JArr frows) ->
        Forall is_point vrows ->
        Forall (is_face (length vrows)) frows ->
        exists m, callZooCAD zoo prompt = Some m /\ mesh_valid m = true).
Proof.
  split.
  - intros s m. rewrite mockCadData_of_string.
    destruct (includes _ (str "camera")); [now intros [= <-]|].
    destruct (includes _ (str "transistor")); now intros [= <-].
  - intros zoo prompt data vrows frows Hz Hv Hf Hpoints Hfaces.
    rewrite (callZooCAD_resolved zoo prompt Hz), Hv, Hf.
    eexists. split; [reflexivity|].
    unfold mesh_valid. cbn [vertices indices].
    destruct (flat_faces Hfaces) as [Hlen Hidx].
    rewrite (flat_points Hpoints), Hlen.
    replace (3 * length vrows / 3) with (length vrows)
      by (symmetry; rewrite Nat.mul_comm; apply Nat.div_mul; discriminate).
    rewrite Hidx.
    replace (3 * length frows mod 3) with 0
      by (symmetry; rewrite Nat.mul_comm; apply Nat.Div0.mod_mul).
    reflexivity.
Qed.

Lemma C10_mesh_invariant_witness :
  mesh_valid default_quad = true
  /\ exists m, callZooCAD (fun _ => AxiosResolved zero_based_triangle)
                 (str "a triangle") = Some m
               /\ mesh_valid m = true.
Proof.
  destruct C10_mesh_invariant as [Hmock Hlive]. split.
  - apply (Hmock (str "a gear train")). reflexivity.
  - apply (Hlive (fun _ => AxiosResolved zero_based_triangle) (str "a triangle")
             zero_based_triangle
             [ JArr [JNum 0; JNum 0; JNum 0];
               JArr [JNum 1; JNum 0; JNum 0];
               JArr [JNum 0; JNum 1; JNum 0] ]
             [ JArr [JNum 0; JNum 1; JNum 2] ]);
      try reflexivity.
    + repeat constructor; unfold is_point; eauto.
    + repeat constructor. exists 0%Z, 1%Z, 2%Z. simpl. repeat split; lia.
Defined.

(** C10 fails on the live path: a body whose face counts its points from 1
    is flattened into a mesh with an index that names no point. *)
Lemma C10_live_mesh_breaks_invariant :
  exists m,
    callZooCAD (fun _ => AxiosResolved one_based_triangle) (str "a triangle")
    = Some m
    /\ mesh_valid m = false.
Proof. eexists. split; reflexivity. Qed.

(** C8, as amended.  [callZooCAD] never throws.  It answers the failure
    value when the request is rejected and when the body has no vertex
    array (the field is missing, null or not an array).  An empty vertex
    array is not a failure: with a face array beside it, it is flattened
    into a mesh with an empty vertex buffer. *)
Theorem C8_vertex_validation (zoo : mesh_backend) (prompt : jsstring) :
  (forall e, zoo prompt = AxiosRejected e -> callZooCAD zoo prompt = None)
  /\ (forall data,
        zoo prompt = AxiosResolved data ->
        (forall rows, vertices_of data <> Some (JArr rows)) ->
        callZooCAD zoo prompt = None)
  /\ (forall data faces,
        zoo prompt = AxiosResolved data ->
        vertices_of data = Some (JArr []) ->
        faces_of data = Some (JArr faces) ->
        callZooCAD zoo prompt = Some (mkMesh [] (flat_map flat_item faces))).
Proof.
  repeat split.
  - intros e Hz. unfold callZooCAD, callZooCAD_try. now rewrite Hz.
  - intros data Hz Hv. rewrite (callZooCAD_resolved zoo prompt Hz).
    destruct (vertices_of data) as [[]|]; try reflexivity.
    now elim (Hv items).
  - intros data faces Hz Hv Hf.
    now rewrite (callZooCAD_resolved zoo prompt Hz), Hv, Hf.
Qed.

Lemma C8_vertex_validation_witness :
  callZooCAD unreachable (str "a cube") = None
  /\ callZooCAD (fun _ => AxiosResolved (JObj [(str "model", JNull)]))
       (str "a cube") = None
  /\ callZooCAD (fun _ => AxiosResolved empty_shape) (str "a cube")
     = Some (mkMesh [] []).
Proof.
  split; [|split].
  - apply (proj1 (C8_vertex_validation unreachable (str "a cube"))
             (Error (str "connect ECONNREFUSED"))).
    reflexivity.
  - apply (proj1 (proj2 (C8_vertex_validation
                           (fun _ => AxiosResolved (JObj [(str "model", JNull)]))
                           (str "a cube")))
             (JObj [(str "model", JNull)])).
    + reflexivity.
    + intros rows. vm_compute. discriminate.
  - apply (proj2 (proj2 (C8_vertex_validation
                           (fun _ => AxiosResolved empty_shape) (str "a cube")))
             empty_shape []); reflexivity.
Defined.

(** C8 fails on an empty vertex array: the body is not a failure, it comes
    back as a mesh without points. *)
Lemma C8_empty_vertex_array_passes :
  vertices_of empty_shape = Some (JArr [])
  /\ callZooCAD (fun _ => AxiosResolved empty_shape) (str "a cube") <> None
  /\ callZooCAD (fun _ => AxiosResolved empty_shape) (str "a cube")
     = Some (mkMesh [] []).
Proof. split; [reflexivity | split; [discriminate | reflexivity]]. Qed.

(** ** The [mentor_query] handler *)

Lemma mockCadData_without_argument :
  mockCadData None = throw undefined_toLowerCase.
Proof. reflexivity. Qed.

(** The handler emits a response exactly when the live backend is
    selected and answers a mesh; on every other path the catalogue is
    called without a prompt, in the [try] block and again in the [catch]
    block, and the handler's promise is rejected. *)
Lemma mentor_query_outcome (USE_REAL_CAD : option jsstring)
    (gem : text_backend) (zoo : mesh_backend) (query : jsstring) :
  mentor_query USE_REAL_CAD gem zoo query =
  if use_real_cad USE_REAL_CAD then
    match callZooCAD zoo (cadPrompt (callGemini gem query)) with
    | Some mesh =>
        ([mentor_response (guidance (callGemini gem query)) mesh], ret tt)
    | None => ([], throw undefined_toLowerCase)
    end
  else ([], throw undefined_toLowerCase).
Proof.
  unfold mentor_query, mentor_query_try, mentor_query_catch.
  rewrite mockCadData_without_argument.
  destruct (use_real_cad USE_REAL_CAD); [|reflexivity].
  now destruct (callZooCAD zoo (cadPrompt (callGemini gem query))).
Qed.

(** C1 does not hold of the code.  Whenever [USE_REAL_CAD] is not
    ['true'] (mock mode, the default) the handler emits no
    [mentor_response], whatever the backends answer: the call
    [mockCadData()] throws, the [catch] block throws the same way, and the
    handler's promise is rejected. *)
Theorem C1_mock_mode_emits_nothing
    (USE_REAL_CAD : option jsstring)
    (gem : text_backend) (zoo : mesh_backend) (query : jsstring) :
  use_real_cad USE_REAL_CAD = false ->
  mockCadData None = throw undefined_toLowerCase
  /\ mentor_query_catch = throw undefined_toLowerCase
  /\ mentor_query USE_REAL_CAD gem zoo query
     = ([], throw undefined_toLowerCase).
Proof.
  intros Hmock. split; [reflexivity | split; [reflexivity|]].
  rewrite mentor_query_outcome. now rewrite Hmock.
Qed.

Lemma C1_mock_mode_emits_nothing_witness :
  mentor_query None (fun _ => GeminiText gears_text)
    (fun _ => AxiosResolved zero_based_triangle) (str "gears")
  = ([], throw undefined_toLowerCase).
Proof.
  apply (C1_mock_mode_emits_nothing None (fun _ => GeminiText gears_text)
           (fun _ => AxiosResolved zero_based_triangle) (str "gears")).
  reflexivity.
Defined.

(** C2 does not hold of the code.  In live mode, when [callZooCAD] answers
    the failure value for the directive, no [mentor_response] is emitted:
    the fallback [cadData || mockCadData()] is called without the
    directive and throws, and so does the [catch] block. *)
Theorem C2_live_failure_emits_nothing
    (gem : text_backend) (zoo : mesh_backend) (query : jsstring) :
  callZooCAD zoo (cadPrompt (callGemini gem query)) = None ->
  mentor_query_try (Some (str "true")) gem zoo query
  = throw undefined_toLowerCase
  /\ mentor_query (Some (str "true")) gem zoo query
     = ([], throw undefined_toLowerCase).
Proof.
  intros Hfail. split.
  - unfold mentor_query_try. simpl use_real_cad. cbv iota.
    unfold bind at 1. unfold ret at 1. now rewrite Hfail.
  - rewrite mentor_query_outcome. simpl use_real_cad. now rewrite Hfail.
Qed.

Lemma C2_live_failure_emits_nothing_witness :
  cadPrompt (callGemini (fun _ => GeminiText gears_text) (str "gears"))
  = str "two gears "
  /\ mentor_query (Some (str "true")) (fun _ => GeminiText gears_text)
       unreachable (str "gears")
     = ([], throw undefined_toLowerCase).
Proof.
  split; [reflexivity|].
  apply (C2_live_failure_emits_nothing (fun _ => GeminiText gears_text)
           unreachable (str "gears")).
  reflexivity.
Defined.

(** ** The [execute_code] handler *)

Lemma alt_ci_some (ps : list jsstring) (p s rest : jsstring) :
  In p ps -> Regex.lit_ci p s = Some rest ->
  exists rest', Regex.alt_ci ps s = Some rest'.
Proof.
  induction ps as [|q ps IH]; simpl; [intros []|].
  intros [->|Hin] Hl.
  - rewrite Hl. eauto.
  - destruct (Regex.lit_ci q s); eauto.
Qed.

Lemma alt_ci_some_inv (ps : list jsstring) (s rest : jsstring) :
  Regex.alt_ci ps s = Some rest ->
  exists p, In p ps /\ Regex.lit_ci p s = Some rest.
Proof.
  induction ps as [|q ps IH]; simpl; [discriminate|].
  destruct (Regex.lit_ci q s) eqn:Hq.
  - intros [= <-]. eauto.
  - intros H. destruct (IH H) as (p & Hin & Hp). eauto.
Qed.

(** The denylist test is true exactly of the texts in which one of its
    words occurs in some letter case. *)
Lemma restricted_iff (code : jsstring) :
  restricted code = true <->
  exists tok, In tok denylist /\ occurs_any_case tok code.
Proof.
  unfold restricted. split.
  - destruct (Regex.search (Regex.alt_ci denylist) code) as [[pre rest]|] eqn:Hs;
      [intros _ | discriminate].
    apply search_some_inv in Hs as (post & -> & Ha).
    apply alt_ci_some_inv in Ha as (tok & Hin & Hl).
    apply lit_ci_some_iff in Hl as (mid & -> & Hm).
    exists tok. split; [exact Hin|].
    exists pre, mid, rest. split; [reflexivity | now apply map_canon_eq_iff].
  - intros (tok & Hin & pre & mid & post & -> & Hm).
    assert (Hl : Regex.lit_ci tok (mid ++ post) = Some post).
    { apply lit_ci_some_iff. exists mid. split; [reflexivity|].
      now apply map_canon_eq_iff. }
    destruct (alt_ci_some denylist tok (mid ++ post) Hin Hl) as (rest' & Ha).
    destruct (search_some_of_match (Regex.alt_ci denylist) pre (mid ++ post) Ha)
      as (pre' & x' & ->).
    reflexivity.
Qed.

Section SandboxFacts.

Variable context : Type.
Variable value : Type.
Variable vm_run : context -> jsstring -> context * settled value value.
Variable is_object : value -> bool.
Variable JSON_stringify : context -> value -> context * (jsstring + exception value).
Variable toString : context -> value -> context * (jsstring + exception value).
Variable message_of : context -> value -> context * (jsstring + exception value).

Local Abbreviation handle :=
  (execute_code vm_run is_object JSON_stringify toString message_of).
Local Abbreviation handle_all :=
  (serve vm_run is_object JSON_stringify toString message_of).
Local Abbreviation leave :=
  (context_after vm_run is_object JSON_stringify toString message_of).

(** The context a request leaves: the one it found when the denylist
    stops it, and otherwise the one left by the run and by the host's
    call on what the run answered. *)
Lemma execute_code_context (vm : context) (code : jsstring) :
  fst (fst (handle vm code))
  = if restricted code then vm else leave vm code.
Proof.
  unfold execute_code, execute_code_try, context_after.
  destruct (restricted code); [reflexivity|].
  destruct (vm_run vm code) as [vm1 [r|e|]]; simpl; [| |reflexivity].
  - destruct (shape is_object JSON_stringify toString vm1 r) as [vm2 [t|e]];
      [reflexivity|].
    now destruct (execute_code_catch message_of vm2 e) as [vm3 [t|e']].
  - now destruct (execute_code_catch message_of vm1 e) as [vm2 [t|e']].
Qed.

Lemma serve_app (vm : context) (before after : list jsstring) :
  handle_all vm (before ++ after)
  = (fst (handle_all (fst (handle_all vm before)) after),
     snd (handle_all vm before)
     ++ snd (handle_all (fst (handle_all vm before)) after)).
Proof.
  revert vm. induction before as [|c before IH]; intros vm; simpl.
  - now destruct (handle_all vm after).
  - destruct (handle vm c) as [[vm1 fx1] k1].
    rewrite IH.
    destruct (handle_all vm1 before) as [vm2 fx2]; simpl.
    now rewrite app_assoc.
Qed.

Lemma serve_context (vm : context) (codes : list jsstring) :
  fst (handle_all vm codes)
  = fold_left leave (filter (fun c => negb (restricted c)) codes) vm.
Proof.
  revert vm. induction codes as [|c codes IH]; intros vm; [reflexivity|].
  simpl.
  pose proof (execute_code_context vm c) as Hc.
  destruct (handle vm c) as [[vm1 fx1] k1]; simpl in Hc.
  specialize (IH vm1).
  destruct (handle_all vm1 codes) as [vm2 fx2]; simpl in *.
  rewrite IH, Hc. now destruct (restricted c).
Qed.

(** C4.  A request whose text holds a word of the denylist, in any
    letter case and anywhere in the text, is stopped by the handler with
    the restricted-keywords error before [codeVm.run] is called: the
    context is left as it was, and the one effect is the
    [execution_result] with the "Execution Error: " text. *)
Theorem C4_denylist_stops_before_run (vm : context) (code tok : jsstring) :
  In tok denylist ->
  occurs_any_case tok code ->
  execute_code_try vm_run is_object JSON_stringify toString vm code
  = (vm, [],
     RejectedWith (ErrorObject (Error (str "Restricted keywords detected"))))
  /\ handle vm code
     = (vm,
        [Emit (execution_result
                 (str "Execution Error: Restricted keywords detected"))],
        Done).
Proof.
  intros Hin Hocc.
  assert (Hr : restricted code = true) by (apply restricted_iff; eauto).
  unfold execute_code, execute_code_try. now rewrite Hr.
Qed.

(** C3, as amended.  Every request is run on the one context of the
    module-level [codeVm]; no context is made for a request.  The context
    a request finds is the one left by the requests before it that passed
    the denylist, each by its run and by the host's call on what the run
    answered, taken in order from the initial context; the response to
    the request is the one the handler computes on that context. *)
Theorem C3_requests_share_one_context
    (vm : context) (before : list jsstring) (code : jsstring) :
  fst (handle_all vm before)
  = fold_left leave (filter (fun c => negb (restricted c)) before) vm
  /\ handle_all vm (before ++ [code])
     = (fst (fst (handle (fst (handle_all vm before)) code)),
        snd (handle_all vm before)
        ++ snd (fst (handle (fst (handle_all vm before)) code))).
Proof.
  split; [apply serve_context|].
  rewrite serve_app. simpl.
  destruct (handle (fst (handle_all vm before)) code) as [[vm' fx] k]; simpl.
  now rewrite app_nil_r.
Qed.

End SandboxFacts.

Lemma C4_denylist_stops_before_run_witness :
  MiniVm.execute_code MiniVm.empty_sandbox (str "x = REQUIRE('fs')")
  = (MiniVm.empty_sandbox,
     [Emit (execution_result
              (str "Execution Error: Restricted keywords detected"))],
     Done).
Proof.
  apply (C4_denylist_stops_before_run MiniVm.vm_run MiniVm.is_object
           MiniVm.JSON_stringify MiniVm.toString MiniVm.message_of
           MiniVm.empty_sandbox
           (code := str "x = REQUIRE('fs')") (tok := str "require")).
  - simpl. auto.
  - exists (str "x = "), (str "REQUIRE"), (str "('fs')"). split; reflexivity.
Defined.

(** C3 fails on the code: a global assigned by one request is read by the
    next one.  After [x = 41], the request [x] is answered 41; on a fresh
    context the same request is answered with a reference error. *)
Lemma C3_later_run_reads_earlier_global :
  snd (fst (MiniVm.execute_code
              (fst (MiniVm.serve MiniVm.empty_sandbox [str "x = 41"]))
              (str "x")))
  = [Run (str "x"); Emit (execution_result (str "41"))]
  /\ snd (fst (MiniVm.execute_code MiniVm.empty_sandbox (str "x")))
     = [Run (str "x");
        Emit (execution_result (str "Execution Error: x is not defined"))]
  /\ snd (fst (MiniVm.execute_code
                 (fst (MiniVm.serve MiniVm.empty_sandbox [str "x = 41"]))
                 (str "x")))
     <> snd (fst (MiniVm.execute_code MiniVm.empty_sandbox (str "x"))).
Proof. split; [reflexivity | split; [reflexivity | discriminate]]. Qed.

(** ** Directive extraction *)

Lemma line_terminator_is_space (c : ascii) :
  is_line_terminator c = true -> is_space c = true.
Proof.
  destruct c as [[] [] [] [] [] [] [] []]; vm_compute; intros H;
    try reflexivity; discriminate H.
Qed.

Lemma dot_run_line (body rest : jsstring) :
  on_one_line body = true -> at_line_end rest = true ->
  Regex.dot_run (body ++ rest) = (body, rest).
Proof.
  intros Hb Hr. induction body as [|c body IH]; simpl in *.
  - destruct rest as [|d rest]; [reflexivity|]. simpl in *. now rewrite Hr.
  - apply andb_true_iff in Hb as [Hc Hb].
    apply negb_true_iff in Hc. rewrite Hc, (IH Hb). reflexivity.
Qed.

Lemma dot_plus_line (run rest : jsstring) :
  run <> [] -> on_one_line run = true -> at_line_end rest = true ->
  Regex.dot_plus (run ++ rest) = Some (run, rest).
Proof.
  intros Hne Hb Hr. unfold Regex.dot_plus. rewrite (dot_run_line _ _ Hb Hr).
  destruct run; [now elim Hne | reflexivity].
Qed.

(** Greedy white space stops in front of a character that is not white
    space, and keeps that stop when the rest of the pattern matches there. *)
Lemma space_star_greedy (X : Type) (k : jsstring -> option X)
    (blanks : jsstring) (c : ascii) (t : jsstring) (x : X) :
  forallb is_space blanks = true -> is_space c = false ->
  k (c :: t) = Some x ->
  Regex.space_star k (blanks ++ c :: t) = Some x.
Proof.
  intros Hb Hc Hk. induction blanks as [|w blanks IH]; simpl in *.
  - now rewrite Hc.
  - apply andb_true_iff in Hb as [Hw Hb]. now rewrite Hw, (IH Hb).
Qed.

Lemma map_canon_marker : map canon marker = marker.
Proof. reflexivity. Qed.

(** No occurrence of the marker begins before another one and runs into
    it: the marker's first letter occurs nowhere else in it. *)
Lemma marker_not_across (b mk tail : jsstring) :
  b <> [] -> length b < length marker ->
  map canon mk = map canon marker ->
  Regex.lit_ci marker (b ++ mk ++ tail) = None.
Proof.
  intros Hb Hlen Hmk.
  destruct (Regex.lit_ci marker (b ++ mk ++ tail)) as [r|] eqn:Hl; [|reflexivity].
  exfalso.
  apply lit_ci_some_iff in Hl as (mid & E & Hmid).
  apply (f_equal (map canon)) in E.
  rewrite !map_app, Hmk, Hmid, map_canon_marker in E.
  apply (f_equal (fun l => nth (length b) l "000"%char)) in E.
  rewrite app_nth2 in E by (rewrite length_map; lia).
  rewrite length_map, Nat.sub_diag in E.
  rewrite (app_nth1 marker (map canon r) "000"%char Hlen) in E.
  destruct b as [|b0 b]; [now elim Hb|].
  change (length marker) with 11 in Hlen. simpl length in *.
  remember (length b) as n eqn:Hn. clear - E Hlen.
  destruct n as [|[|[|[|[|[|[|[|[|[|n]]]]]]]]]];
    try (vm_compute in E; discriminate E).
  lia.
Qed.

Lemma marker_not_before (pre mk tail a b : jsstring) :
  ~ occurs_any_case marker pre ->
  map canon mk = map canon marker ->
  pre = a ++ b -> b <> [] ->
  Regex.lit_ci marker (b ++ mk ++ tail) = None.
Proof.
  intros Hfree Hmk -> Hb.
  destruct (lt_dec (length b) (length marker)) as [Hlt|Hge];
    [now apply marker_not_across|].
  destruct (Regex.lit_ci marker (b ++ mk ++ tail)) as [r|] eqn:Hl; [|reflexivity].
  exfalso. apply Hfree.
  apply lit_ci_some_iff in Hl as (mid & E & Hmid).
  assert (Hlen : length mid = length marker).
  { apply (f_equal (@length ascii)) in Hmid. now rewrite !length_map in Hmid. }
  apply app_eq_app in E as (l & [[E1 E2]|[E1 E2]]).
  - exists a, mid, l. split; [now rewrite E1 | now apply map_canon_eq_iff].
  - assert (l = []) as ->.
    { apply (f_equal (@length ascii)) in E1. rewrite length_app in E1.
      destruct l; [reflexivity | simpl in E1; lia]. }
    rewrite app_nil_r in E1. subst mid.
    exists a, b, []. split; [now rewrite app_nil_r | now apply map_canon_eq_iff].
Qed.

Lemma marker_absent (raw pre post : jsstring) :
  ~ occurs_any_case marker raw ->
  raw = pre ++ post ->
  Regex.lit_ci marker post = None.
Proof.
  intros Hfree ->.
  destruct (Regex.lit_ci marker post) as [r|] eqn:Hl; [|reflexivity].
  exfalso. apply Hfree.
  apply lit_ci_some_iff in Hl as (mid & -> & Hmid).
  exists pre, mid, r. split; [reflexivity | now apply map_canon_eq_iff].
Qed.

(** A failed search for a word under the [i] flag shows the word absent
    in every letter case. *)
Lemma absent_by_search (k s : jsstring) :
  Regex.search (Regex.lit_ci k) s = None -> ~ occurs_any_case k s.
Proof.
  intros Hs (pre & mid & post & -> & Hm).
  assert (Hl : Regex.lit_ci k (mid ++ post) = Some post).
  { apply lit_ci_some_iff. exists mid. split; [reflexivity|].
    now apply map_canon_eq_iff. }
  rewrite (proj1 (search_none_iff (Regex.lit_ci k) _) Hs pre (mid ++ post) eq_refl)
    in Hl.
  discriminate.
Qed.

(** ** The degraded guidance *)

Lemma callGemini_without_marker (gem : text_backend) (query raw : jsstring) :
  gem (instruction query) = GeminiText raw ->
  ~ occurs_any_case marker raw ->
  callGemini gem query
  = mkGuidance (trim raw) (str "3D model showing: " ++ query).
Proof.
  intros Hgem Hfree. unfold callGemini, callGemini_try. rewrite Hgem.
  assert (Hsec : Regex.search cad_section_at raw = None).
  { apply search_none_iff. intros pre post E. unfold cad_section_at.
    now rewrite (@marker_absent raw pre post Hfree E). }
  assert (Hrep : Regex.search cad_line_at raw = None).
  { apply search_none_iff. intros pre post E. unfold cad_line_at.
    now rewrite (@marker_absent raw pre post Hfree E). }
  unfold cadSection, replace_cad_line. now rewrite Hsec, Hrep.
Qed.

(** C6, as amended.  [callGemini] returns a result whatever the backend
    does.  When the backend call throws or is rejected (network error,
    time-out, an output that cannot be handed over as a text), the result
    is the canned one: the guidance is the apology and the directive is
    "Educational model for: " followed by the query; neither is empty.
    An output that arrives as a text, however malformed, is not a
    failure: for a text without the marker the result is the trimmed text
    with the directive "3D model showing: " followed by the query. *)
Theorem C6_degraded_guidance (gem : text_backend) (query : jsstring) :
  (forall e,
      gem (instruction query) = GeminiRejected e ->
      callGemini gem query
      = mkGuidance
          (str "I'm having trouble visualizing that. Let me try again...")
          (str "Educational model for: " ++ query)
      /\ guidance (callGemini gem query) <> []
      /\ cadPrompt (callGemini gem query) <> [])
  /\ (forall raw,
        gem (instruction query) = GeminiText raw ->
        ~ occurs_any_case marker raw ->
        callGemini gem query
        = mkGuidance (trim raw) (str "3D model showing: " ++ query)).
Proof.
  split.
  - intros e H. unfold callGemini, callGemini_try. rewrite H.
    split; [reflexivity | split; discriminate].
  - intros raw Hgem Hfree. now apply callGemini_without_marker.
Qed.

Lemma C6_degraded_guidance_witness :
  callGemini offline (str "how does a gearbox work")
  = mkGuidance (str "I'm having trouble visualizing that. Let me try again...")
               (str "Educational model for: how does a gearbox work")
  /\ callGemini (fun _ => GeminiText (str "#%@!! 0x3f ~~")) (str "gears")
     = mkGuidance (str "#%@!! 0x3f ~~") (str "3D model showing: gears").
Proof.
  split.
  - apply (proj1 (C6_degraded_guidance offline (str "how does a gearbox work"))
             (Error (str "fetch failed"))).
    reflexivity.
  - apply (proj2 (C6_degraded_guidance
                    (fun _ => GeminiText (str "#%@!! 0x3f ~~")) (str "gears"))
             (str "#%@!! 0x3f ~~")).
    + reflexivity.
    + apply absent_by_search. reflexivity.
Defined.

(** C6 fails twice.  When the backend call fails, the directive is not
    "3D model showing: " followed by the query.  And a malformed output
    that arrives as a text is not answered with the apology: it is taken
    for the explanation. *)
Lemma C6_degraded_directive_differs :
  cadPrompt (callGemini offline (str "how does a gearbox work"))
  <> str "3D model showing: " ++ str "how does a gearbox work"
  /\ guidance (callGemini (fun _ => GeminiText (str "#%@!! 0x3f ~~"))
                 (str "gears"))
     = str "#%@!! 0x3f ~~"
  /\ guidance (callGemini (fun _ => GeminiText (str "#%@!! 0x3f ~~"))
                 (str "gears"))
     <> str "I'm having trouble visualizing that. Let me try again...".
Proof. split; [discriminate | split; [reflexivity | discriminate]]. Qed.

(** C7, as amended.  The marker is looked for in any letter case and at
    any place of a line.  When its first occurrence is followed on its
    line by blanks and then by a text that begins with a character other
    than white space, the directive is that text up to the end of the
    line, white space at its end included, and the explanation is the raw
    text with the marker and the rest of its line cut out, trimmed as a
    whole.  When the raw text has no marker, the directive is
    "3D model showing: " followed by the query and the explanation is the
    trimmed raw text. *)
Theorem C7_directive_extraction
    (gem : text_backend) (query raw : jsstring) :
  gem (instruction query) = GeminiText raw ->
  (forall pre mk blanks c body rest,
      raw = pre ++ mk ++ blanks ++ (c :: body) ++ rest ->
      ~ occurs_any_case marker pre ->
      toLowerCase mk = toLowerCase marker ->
      forallb is_blank blanks = true ->
      is_space c = false ->
      on_one_line body = true ->
      at_line_end rest = true ->
      callGemini gem query = mkGuidance (trim (pre ++ rest)) (c :: body))
  /\ (~ occurs_any_case marker raw ->
      callGemini gem query
      = mkGuidance (trim raw) (str "3D model showing: " ++ query)).
Proof.
  intros Hgem. unfold callGemini, callGemini_try. rewrite Hgem. split.
  - intros pre mk blanks c body rest -> Hfree Hmk Hblanks Hc Hbody Hrest.
    apply map_canon_eq_iff in Hmk.
    assert (Hlt : is_line_terminator c = false).
    { destruct (is_line_terminator c) eqn:E; [|reflexivity].
      apply line_terminator_is_space in E. congruence. }
    assert (Hline : on_one_line (c :: body) = true).
    { simpl. now rewrite Hlt. }
    assert (Hsp : forallb is_space blanks = true).
    { apply forallb_forall. intros w Hw.
      apply (proj1 (forallb_forall _ _) Hblanks) in Hw.
      now apply andb_true_iff in Hw. }
    assert (Hbl : on_one_line blanks = true).
    { apply forallb_forall. intros w Hw.
      apply (proj1 (forallb_forall _ _) Hblanks) in Hw.
      now apply andb_true_iff in Hw. }
    assert (Hmk' : forall t, Regex.lit_ci marker (mk ++ t) = Some t).
    { intros t. apply lit_ci_some_iff. now exists mk. }
    assert (Hsec : Regex.search cad_section_at
                     (pre ++ mk ++ blanks ++ (c :: body) ++ rest)
                   = Some (pre, (c :: body, rest))).
    { apply search_first.
      - intros a b E Hb. unfold cad_section_at.
        now rewrite (@marker_not_before pre mk (blanks ++ (c :: body) ++ rest)
                       a b Hfree Hmk E Hb).
      - unfold cad_section_at. rewrite Hmk'.
        apply space_star_greedy; [exact Hsp | exact Hc |].
        apply (dot_plus_line (run := c :: body)); [discriminate | exact Hline | exact Hrest]. }
    assert (Hrep : Regex.search cad_line_at
                     (pre ++ mk ++ blanks ++ (c :: body) ++ rest)
                   = Some (pre, (blanks ++ c :: body, rest))).
    { apply search_first.
      - intros a b E Hb. unfold cad_line_at.
        now rewrite (@marker_not_before pre mk (blanks ++ (c :: body) ++ rest)
                       a b Hfree Hmk E Hb).
      - unfold cad_line_at. rewrite Hmk'.
        rewrite app_assoc.
        apply dot_plus_line; [now destruct blanks | | exact Hrest].
        unfold on_one_line in *. rewrite forallb_app. now rewrite Hbl, Hline. }
    unfold cadSection, replace_cad_line. rewrite Hsec, Hrep. reflexivity.
  - intros Hfree.
    assert (Hsec : Regex.search cad_section_at raw = None).
    { apply search_none_iff. intros pre post E. unfold cad_section_at.
      now rewrite (@marker_absent raw pre post Hfree E). }
    assert (Hrep : Regex.search cad_line_at raw = None).
    { apply search_none_iff. intros pre post E. unfold cad_line_at.
      now rewrite (@marker_absent raw pre post Hfree E). }
    unfold cadSection, replace_cad_line. rewrite Hsec, Hrep. reflexivity.
Qed.

Lemma C7_directive_extraction_witness :
  callGemini (fun _ => GeminiText gears_text) (str "gears")
  = mkGuidance (str "Gears mesh." ++ [LF; LF] ++ str "Ask more.")
               (str "two gears ")
  /\ callGemini (fun _ => GeminiText (str "Gears mesh.")) (str "gears")
     = mkGuidance (str "Gears mesh.") (str "3D model showing: gears").
Proof.
  split.
  - apply (proj1 (C7_directive_extraction
                    (fun _ => GeminiText gears_text) (str "gears")
                    (raw := gears_text) eq_refl)
             (str "Gears mesh." ++ [LF]) (str "Cad_Prompt:") (str "  ")
             "t"%char (str "wo gears ") (LF :: str "Ask more."));
      try reflexivity.
    apply absent_by_search. reflexivity.
  - apply (proj2 (C7_directive_extraction
                    (fun _ => GeminiText (str "Gears mesh.")) (str "gears")
                    (raw := str "Gears mesh.") eq_refl)).
    apply absent_by_search. reflexivity.
Defined.

(** C7 fails on white space at the end of the marker line: the directive
    keeps it, so it is not the trimmed remainder of the line. *)
Lemma C7_directive_keeps_trailing_space :
  cadPrompt (callGemini (fun _ => GeminiText (marker ++ str " a cube "))
               (str "cubes"))
  = str "a cube "
  /\ trim (str " a cube ") = str "a cube"
  /\ cadPrompt (callGemini (fun _ => GeminiText (marker ++ str " a cube "))
                  (str "cubes"))
     <> trim (str " a cube ").
Proof. split; [reflexivity | split; [reflexivity | discriminate]]. Qed.

(** ** More on the [execute_code] handler *)

Lemma runs_app (a b : list effect) : runs (a ++ b) = runs a ++ runs b.
Proof.
  induction a as [|[c|m] a IH]; simpl; [reflexivity | now rewrite IH | exact IH].
Qed.

Lemma emits_app (a b : list effect) : emits (a ++ b) = emits a ++ emits b.
Proof.
  induction a as [|[c|m] a IH]; simpl; [reflexivity | exact IH | now rewrite IH].
Qed.

Lemma accepted_iff (code : jsstring) :
  accepted code = true <->
  forall tok, In tok denylist -> ~ occurs_any_case tok code.
Proof.
  unfold accepted. rewrite negb_true_iff. split.
  - intros Hr tok Hin Hocc.
    assert (restricted code = true) by (apply restricted_iff; eauto).
    congruence.
  - intros H. destruct (restricted code) eqn:Hr; [|reflexivity].
    apply restricted_iff in Hr as (tok & Hin & Hocc). now elim (H tok).
Qed.

(** Padding does not get a text past the denylist: a text that holds a
    rejected text is rejected. *)
Theorem restricted_embedding (before code after : jsstring) :
  restricted code = true ->
  restricted (before ++ code ++ after) = true.
Proof.
  intros H. apply restricted_iff in H as (tok & Hin & pre & mid & post & -> & Hm).
  apply restricted_iff. exists tok. split; [exact Hin|].
  exists (before ++ pre), mid, (post ++ after).
  split; [now rewrite !app_assoc | exact Hm].
Qed.

Lemma restricted_embedding_witness :
  restricted (str "var fs = " ++ str "Require('fs')" ++ str "; fs") = true.
Proof.
  apply (restricted_embedding (str "var fs = ") (str "Require('fs')") (str "; fs")).
  reflexivity.
Defined.

Section SandboxRuns.

Variable context : Type.
Variable value : Type.
Variable vm_run : context -> jsstring -> context * settled value value.
Variable is_object : value -> bool.
Variable JSON_stringify : context -> value -> context * (jsstring + exception value).
Variable toString : context -> value -> context * (jsstring + exception value).
Variable message_of : context -> value -> context * (jsstring + exception value).

Local Abbreviation handle :=
  (execute_code vm_run is_object JSON_stringify toString message_of).
Local Abbreviation handle_all :=
  (serve vm_run is_object JSON_stringify toString message_of).
Local Abbreviation endings :=
  (completions vm_run is_object JSON_stringify toString message_of).
Local Abbreviation leave :=
  (context_after vm_run is_object JSON_stringify toString message_of).

(** What one request does, whatever the interpreter answers: the run,
    unless the denylist stops the request, and one message when the
    handler runs to its end. *)
Lemma execute_code_effects (vm : context) (code : jsstring) :
  exists text,
    snd (fst (handle vm code))
    = (if restricted code then [] else [Run code])
      ++ (if completed (snd (handle vm code))
          then [Emit (execution_result text)] else []).
Proof.
  unfold execute_code, execute_code_try.
  destruct (restricted code); [eexists; reflexivity|].
  destruct (vm_run vm code) as [vm1 [r|e|]]; simpl.
  - destruct (shape is_object JSON_stringify toString vm1 r) as [vm2 [t|e]];
      simpl.
    + eexists; reflexivity.
    + destruct (execute_code_catch message_of vm2 e) as [vm3 [t|e']];
        first [ now exists [] | eexists; reflexivity ].
  - destruct (execute_code_catch message_of vm1 e) as [vm2 [t|e']];
      first [ now exists [] | eexists; reflexivity ].
  - now exists [].
Qed.

(** A text in which no word of the denylist occurs is handed to
    [codeVm.run] once, as it was received.  When the handler runs to its
    end, one [execution_result] follows the run; when it does not, nothing
    is emitted.  It does not run to its end when the result never settles
    (the handler stays suspended) and when the script throws [null] (the
    [catch] block throws on [error.message] and the handler is
    rejected). *)
Theorem execute_code_accepted_runs_once (vm : context) (code : jsstring) :
  (forall tok, In tok denylist -> ~ occurs_any_case tok code) ->
  fst (fst (handle vm code)) = leave vm code
  /\ ((snd (handle vm code) = Done
       /\ exists text,
            snd (fst (handle vm code))
            = [Run code; Emit (execution_result text)])
      \/ (snd (handle vm code) <> Done
          /\ snd (fst (handle vm code)) = [Run code]))
  /\ (snd (vm_run vm code) = Pending ->
      handle vm code = (fst (vm_run vm code), [Run code], Suspended))
  /\ (snd (vm_run vm code) = RejectedWith ThrownNull ->
      handle vm code
      = (fst (vm_run vm code), [Run code],
         Rejected
           (ErrorObject
              (TypeError
                 (str "Cannot read properties of null (reading 'message')"))))).
Proof.
  intros Hfree. apply accepted_iff in Hfree. unfold accepted in Hfree.
  apply negb_true_iff in Hfree.
  split; [|split; [|split]].
  - rewrite (execute_code_context vm_run is_object JSON_stringify toString
               message_of vm code).
    now rewrite Hfree.
  - destruct (execute_code_effects vm code) as (text & Ht).
    rewrite Hfree in Ht.
    destruct (snd (handle vm code)) eqn:Hk; simpl in Ht.
    + left. split; [reflexivity | now exists text].
    + right. split; [discriminate | exact Ht].
    + right. split; [discriminate | exact Ht].
  - intros Hp. unfold execute_code, execute_code_try. rewrite Hfree.
    destruct (vm_run vm code) as [vm1 out]. simpl in Hp. now subst out.
  - intros Hp. unfold execute_code, execute_code_try. rewrite Hfree.
    destruct (vm_run vm code) as [vm1 out]. simpl in Hp. now subst out.
Qed.

Lemma completions_length (vm : context) (codes : list jsstring) :
  length (endings vm codes) = length codes.
Proof.
  revert vm. induction codes as [|c codes IH]; intros vm; simpl; [reflexivity|].
  destruct (handle vm c) as [[vm1 fx1] k1]. simpl. now rewrite IH.
Qed.

(** A run of the server emits one [execution_result] for each request
    whose handler runs to its end and nothing else: no message for a
    handler that is rejected or stays suspended, never two messages for
    one request, never a message of another kind. *)
Theorem serve_one_result_per_completed_request
    (vm : context) (codes : list jsstring) :
  length (emits (snd (handle_all vm codes)))
  = length (filter (@completed value) (endings vm codes))
  /\ length (emits (snd (handle_all vm codes))) <= length codes
  /\ Forall (fun msg => exists text, msg = execution_result text)
       (emits (snd (handle_all vm codes))).
Proof.
  assert (H : length (emits (snd (handle_all vm codes)))
              = length (filter (@completed value) (endings vm codes))
              /\ Forall (fun msg => exists text, msg = execution_result text)
                   (emits (snd (handle_all vm codes)))).
  { revert vm. induction codes as [|c codes IH]; intros vm; simpl.
    - split; [reflexivity | constructor].
    - destruct (execute_code_effects vm c) as (text & Ht).
      destruct (handle vm c) as [[vm1 fx1] k1]. simpl in Ht.
      specialize (IH vm1). destruct (handle_all vm1 codes) as [vm2 fx2].
      simpl in *. destruct IH as [IHl IHf].
      rewrite emits_app, Ht, emits_app.
      destruct (restricted c), (completed k1); simpl;
        (split; [now rewrite IHl | try constructor; eauto]). }
  destruct H as [Hl Hf]. split; [exact Hl | split; [|exact Hf]].
  rewrite Hl, <- (completions_length vm codes). apply filter_length_le.
Qed.

(** The scripts that reach the interpreter are the requests the denylist
    lets through, in the order received and unchanged. *)
Theorem serve_runs_accepted (vm : context) (codes : list jsstring) :
  runs (snd (handle_all vm codes)) = filter accepted codes.
Proof.
  revert vm. induction codes as [|c codes IH]; intros vm; simpl; [reflexivity|].
  destruct (execute_code_effects vm c) as (text & Ht).
  destruct (handle vm c) as [[vm1 fx1] k1]. simpl in Ht.
  specialize (IH vm1). destruct (handle_all vm1 codes) as [vm2 fx2].
  simpl in *. rewrite runs_app, Ht, runs_app, IH. unfold accepted at 2.
  destruct (restricted c), (completed k1); reflexivity.
Qed.

(** A request stopped by the denylist is inert: put anywhere in a run, it
    adds its own rejection at its place and changes neither the responses
    to the other requests nor the context they leave. *)
Theorem serve_rejected_is_inert
    (vm : context) (before after : list jsstring) (code tok : jsstring) :
  In tok denylist ->
  occurs_any_case tok code ->
  handle_all vm (before ++ code :: after)
  = (fst (handle_all vm (before ++ after)),
     snd (handle_all vm before)
     ++ [Emit rejection]
     ++ snd (handle_all (fst (handle_all vm before)) after))
  /\ snd (handle_all vm (before ++ after))
     = snd (handle_all vm before)
       ++ snd (handle_all (fst (handle_all vm before)) after).
Proof.
  intros Hin Hocc.
  assert (Hr : restricted code = true) by (apply restricted_iff; eauto).
  rewrite !(serve_app vm_run is_object JSON_stringify toString message_of).
  split; [|reflexivity].
  simpl. unfold execute_code at 1 2, execute_code_try. rewrite Hr. simpl.
  destruct (handle_all (fst (handle_all vm before)) after) as [vm2 fx2].
  reflexivity.
Qed.

End SandboxRuns.

Lemma execute_code_accepted_runs_once_witness :
  MiniVm.execute_code MiniVm.empty_sandbox (str "throw null")
  = (MiniVm.empty_sandbox, [Run (str "throw null")],
     Rejected
       (ErrorObject
          (TypeError (str "Cannot read properties of null (reading 'message')")))).
Proof.
  assert (Hfree : forall tok, In tok denylist ->
                    ~ occurs_any_case tok (str "throw null")).
  { intros tok Hin. apply absent_by_search.
    simpl in Hin. destruct Hin as [<-|[<-|[<-|[]]]]; reflexivity. }
  apply (proj2 (proj2 (proj2
           (@execute_code_accepted_runs_once _ _ MiniVm.vm_run MiniVm.is_object
              MiniVm.JSON_stringify MiniVm.toString MiniVm.message_of
              MiniVm.empty_sandbox (str "throw null") Hfree)))).
  reflexivity.
Defined.

Lemma serve_rejected_is_inert_witness :
  MiniVm.serve MiniVm.empty_sandbox
    [str "x = 41"; str "process.exit()"; str "x"]
  = ([("x"%char, str "41")],
     [Run (str "x = 41"); Emit (execution_result (str "41"));
      Emit rejection;
      Run (str "x"); Emit (execution_result (str "41"))]).
Proof.
  apply (proj1 (serve_rejected_is_inert MiniVm.vm_run MiniVm.is_object
                  MiniVm.JSON_stringify MiniVm.toString MiniVm.message_of
                  MiniVm.empty_sandbox
                  [str "x = 41"] [str "x"]
                  (code := str "process.exit()") (tok := str "process")
                  (or_introl eq_refl)
                  (ex_intro _ [] (ex_intro _ (str "process")
                     (ex_intro _ (str ".exit()") (conj eq_refl eq_refl)))))).
Defined.

(** ** More on [callGemini] *)

Lemma trimStart_head (s t : jsstring) (c : ascii) :
  trimStart s = c :: t -> is_space c = false.
Proof.
  induction s as [|d s IH]; simpl; [discriminate|].
  destruct (is_space d) eqn:Hd; [exact IH|].
  now intros [= <- _].
Qed.

Lemma trimStart_split (s : jsstring) :
  exists blanks, s = blanks ++ trimStart s /\ forallb is_space blanks = true.
Proof.
  induction s as [|d s (blanks & E & Hb)]; simpl.
  - now exists [].
  - destruct (is_space d) eqn:Hd.
    + exists (d :: blanks). simpl. rewrite Hd, Hb. split; [now rewrite <- E | reflexivity].
    + now exists [].
Qed.

Lemma trimStart_fixed (s : jsstring) :
  (forall c t, s = c :: t -> is_space c = false) -> trimStart s = s.
Proof.
  destruct s as [|d s]; [reflexivity|].
  intros H. simpl. now rewrite (H d s eq_refl).
Qed.

Lemma trimStart_idempotent (s : jsstring) :
  trimStart (trimStart s) = trimStart s.
Proof.
  apply trimStart_fixed. intros c t E. exact (trimStart_head s E).
Qed.

Lemma trimEnd_prefix (s : jsstring) : exists blanks, s = trimEnd s ++ blanks.
Proof.
  unfold trimEnd. destruct (trimStart_split (rev s)) as (blanks & E & _).
  exists (rev blanks). rewrite <- rev_app_distr, <- E. now rewrite rev_involutive.
Qed.

(** The result of [trim] has no white space at either end. *)
Lemma trim_trimmed (s : jsstring) :
  trimStart (trim s) = trim s /\ trimEnd (trim s) = trim s.
Proof.
  unfold trim. split.
  - apply trimStart_fixed. intros c t E.
    destruct (trimEnd_prefix (trimStart s)) as (blanks & Eb).
    rewrite E in Eb. simpl in Eb. exact (trimStart_head s Eb).
  - unfold trimEnd. rewrite rev_involutive. now rewrite trimStart_idempotent.
Qed.

(** The guidance [callGemini] returns never begins or ends with white
    space, whatever the backend answers. *)
Theorem callGemini_guidance_trimmed (gem : text_backend) (query : jsstring) :
  trimStart (guidance (callGemini gem query)) = guidance (callGemini gem query)
  /\ trimEnd (guidance (callGemini gem query)) = guidance (callGemini gem query).
Proof.
  unfold callGemini, callGemini_try.
  destruct (gem (instruction query)) as [e|raw]; simpl guidance.
  - split; reflexivity.
  - apply trim_trimmed.
Qed.

Lemma dot_run_split (s : jsstring) :
  s = fst (Regex.dot_run s) ++ snd (Regex.dot_run s)
  /\ on_one_line (fst (Regex.dot_run s)) = true.
Proof.
  induction s as [|c s [E Hl]]; simpl; [now split|].
  destruct (is_line_terminator c) eqn:Hc; simpl; [now split|].
  destruct (Regex.dot_run s) as [run rest]. simpl in *.
  rewrite Hc, Hl. split; [now rewrite <- E | reflexivity].
Qed.

Lemma dot_plus_inv (s run rest : jsstring) :
  Regex.dot_plus s = Some (run, rest) ->
  s = run ++ rest /\ on_one_line run = true /\ run <> [].
Proof.
  unfold Regex.dot_plus. destruct (dot_run_split s) as [E Hl].
  destruct (Regex.dot_run s) as [[|c r] t]; [discriminate|].
  intros [= <- <-]. simpl in *. repeat split; [exact E | exact Hl | discriminate].
Qed.

Lemma space_star_inv (X : Type) (k : jsstring -> option X) (s : jsstring) (x : X) :
  Regex.space_star k s = Some x ->
  exists blanks t, s = blanks ++ t /\ k t = Some x.
Proof.
  induction s as [|c s IH]; simpl; intros H.
  - now exists [], [].
  - destruct (is_space c); [|now exists [], (c :: s)].
    destruct (Regex.space_star k s) as [y|] eqn:Hs.
    + injection H as <-. destruct (IH eq_refl) as (blanks & t & -> & Hk).
      now exists (c :: blanks), t.
    + now exists [], (c :: s).
Qed.

Lemma space_star_some (X : Type) (k : jsstring -> option X) (s : jsstring) (x : X) :
  k s = Some x -> exists y, Regex.space_star k s = Some y.
Proof.
  intros Hk. destruct s as [|c s]; simpl; [eauto|].
  destruct (is_space c); [|eauto].
  destruct (Regex.space_star k s); eauto.
Qed.

(** The capture group is a piece of the response that lies on one line. *)
Lemma cadSection_inv (raw directive : jsstring) :
  cadSection raw = Some directive ->
  (exists before after, raw = before ++ directive ++ after)
  /\ on_one_line directive = true
  /\ directive <> [].
Proof.
  unfold cadSection.
  destruct (Regex.search cad_section_at raw) as [[pre [group rest]]|] eqn:Hs;
    [|discriminate].
  intros [= <-].
  apply search_some_inv in Hs as (post & -> & Hm).
  unfold cad_section_at in Hm.
  destruct (Regex.lit_ci marker post) as [t|] eqn:Hl; [|discriminate].
  apply lit_ci_some_iff in Hl as (mk & -> & _).
  apply space_star_inv in Hm as (blanks & u & -> & Hd).
  apply dot_plus_inv in Hd as (-> & Hline & Hne).
  repeat split; [|exact Hline | exact Hne].
  exists (pre ++ mk ++ blanks), rest. now rewrite <- !app_assoc.
Qed.

(** The directive is never empty.  When the backend answers a text, the
    directive is either "3D model showing: " followed by the query or a
    piece of that text lying on one line. *)
Theorem callGemini_directive_shape (gem : text_backend) (query : jsstring) :
  cadPrompt (callGemini gem query) <> []
  /\ (forall raw,
        gem (instruction query) = GeminiText raw ->
        cadPrompt (callGemini gem query) = str "3D model showing: " ++ query
        \/ ((exists before after,
               raw = before ++ cadPrompt (callGemini gem query) ++ after)
            /\ on_one_line (cadPrompt (callGemini gem query)) = true)).
Proof.
  unfold callGemini, callGemini_try.
  destruct (gem (instruction query)) as [e|raw0]; simpl cadPrompt.
  - split; [discriminate | intros raw; discriminate].
  - destruct (cadSection raw0) as [d|] eqn:Hc; simpl.
    + apply cadSection_inv in Hc as (Hpiece & Hline & Hne).
      destruct d as [|c d]; [now elim Hne|]. simpl.
      split; [discriminate|]. intros raw [= <-]. right. now split.
    + split; [discriminate|]. intros raw _. now left.
Qed.

Lemma callGemini_directive_shape_witness :
  (exists before after,
     gears_text
     = before
       ++ cadPrompt (callGemini (fun _ => GeminiText gears_text) (str "gears"))
       ++ after)
  /\ on_one_line
       (cadPrompt (callGemini (fun _ => GeminiText gears_text) (str "gears")))
     = true.
Proof.
  destruct (proj2 (callGemini_directive_shape
                     (fun _ => GeminiText gears_text) (str "gears"))
              gears_text eq_refl) as [H|H].
  - vm_compute in H. discriminate H.
  - exact H.
Defined.

(** When the pattern of the directive finds nothing in the response, the
    pattern of the cut finds nothing either: the directive falls back to
    the query and the guidance is the whole response, trimmed. *)
Theorem callGemini_fallback_cuts_nothing
    (gem : text_backend) (query raw : jsstring) :
  gem (instruction query) = GeminiText raw ->
  cadSection raw = None ->
  callGemini gem query
  = mkGuidance (trim raw) (str "3D model showing: " ++ query).
Proof.
  intros Hgem Hnone. unfold callGemini, callGemini_try. rewrite Hgem, Hnone.
  unfold cadSection in Hnone.
  destruct (Regex.search cad_section_at raw) as [[? [? ?]]|] eqn:Hs;
    [discriminate|].
  assert (Hrep : Regex.search cad_line_at raw = None).
  { apply search_none_iff. intros pre post E.
    pose proof (proj1 (search_none_iff cad_section_at raw) Hs pre post E) as Hp.
    unfold cad_section_at in Hp. unfold cad_line_at.
    destruct (Regex.lit_ci marker post) as [t|]; [|reflexivity].
    destruct (Regex.dot_plus t) as [x|] eqn:Hd; [|reflexivity].
    destruct (space_star_some Regex.dot_plus t Hd) as (y & Hy). congruence. }
  unfold replace_cad_line. now rewrite Hrep.
Qed.

Lemma callGemini_fallback_cuts_nothing_witness :
  callGemini (fun _ => GeminiText (str "  Gears mesh. CAD_PROMPT:"))
    (str "gears")
  = mkGuidance (str "Gears mesh. CAD_PROMPT:") (str "3D model showing: gears").
Proof.
  apply (callGemini_fallback_cuts_nothing
           (fun _ => GeminiText (str "  Gears mesh. CAD_PROMPT:")) (str "gears")
           (raw := str "  Gears mesh. CAD_PROMPT:")); reflexivity.
Defined.

(** With no marker before it and none after it, an occurrence of the
    marker is the only place where the marker matches. *)
Lemma marker_only_here (pre mk tail p post r : jsstring) :
  ~ occurs_any_case marker pre ->
  ~ occurs_any_case marker tail ->
  map canon mk = map canon marker ->
  pre ++ mk ++ tail = p ++ post ->
  Regex.lit_ci marker post = Some r ->
  p = pre.
Proof.
  intros Hpre Htail Hmk E Hl.
  assert (Hin_tail : forall a, tail = a ++ post -> False).
  { intros a ->. apply Htail.
    apply lit_ci_some_iff in Hl as (mid & -> & Hmid).
    exists a, mid, r. split; [reflexivity | now apply map_canon_eq_iff]. }
  apply app_eq_app in E as (l & [[E1 E2]|[E1 E2]]).
  - destruct l as [|d l]; [now rewrite app_nil_r in E1|].
    subst post.
    rewrite (@marker_not_before pre mk tail p (d :: l) Hpre Hmk E1) in Hl
      by discriminate.
    discriminate.
  - destruct l as [|d l]; [now rewrite app_nil_r in E1|].
    exfalso. apply app_eq_app in E2 as (l2 & [[E3 E4]|[E3 E4]]).
    + destruct l2 as [|d2 l2]; [apply (Hin_tail []); now rewrite E4|].
      subst post.
      assert (Hc : "C"%char = canon d2).
      { apply lit_ci_some_iff in Hl as ([|m0 mid] & Em & Hmid);
          [discriminate Hmid|].
        simpl in Em. injection Em as <- _.
        rewrite map_canon_marker in Hmid. now injection Hmid as -> _. }
      rewrite E3, map_canon_marker in Hmk.
      assert (Hlen : length (d :: l) + S (length l2) = 11).
      { apply (f_equal (@length ascii)) in Hmk.
        rewrite length_map, length_app in Hmk. exact Hmk. }
      apply (f_equal (fun s => nth (length (d :: l)) s "000"%char)) in Hmk.
      rewrite map_app, app_nth2 in Hmk by (rewrite length_map; lia).
      rewrite length_map, Nat.sub_diag in Hmk. simpl nth at 1 in Hmk.
      rewrite <- Hc in Hmk. simpl length in *.
      remember (length l) as n eqn:Hn. clear - Hmk Hlen.
      destruct n as [|[|[|[|[|[|[|[|[|[|n]]]]]]]]]];
        try (vm_compute in Hmk; discriminate Hmk).
      lia.
    + apply (Hin_tail l2). exact E4.
Qed.

(** When the first marker ends its line and the text that follows begins
    on a later line, the two patterns part ways: the directive is that
    later line, and nothing is cut from the guidance, which keeps the
    marker (provided no other marker follows). *)
Theorem callGemini_directive_on_later_line
    (gem : text_backend)
    (query pre mk : jsstring) (lt : ascii) (blanks : jsstring)
    (c : ascii) (body rest : jsstring) :
  gem (instruction query)
  = GeminiText (pre ++ mk ++ (lt :: blanks) ++ (c :: body) ++ rest) ->
  ~ occurs_any_case marker pre ->
  ~ occurs_any_case marker ((lt :: blanks) ++ (c :: body) ++ rest) ->
  toLowerCase mk = toLowerCase marker ->
  is_line_terminator lt = true ->
  forallb is_space blanks = true ->
  is_space c = false ->
  on_one_line body = true ->
  at_line_end rest = true ->
  callGemini gem query
  = mkGuidance (trim (pre ++ mk ++ (lt :: blanks) ++ (c :: body) ++ rest))
               (c :: body).
Proof.
  intros Hgem Hpre Htail Hmk Hlt Hblanks Hc Hbody Hrest.
  apply map_canon_eq_iff in Hmk.
  set (tail := (lt :: blanks) ++ (c :: body) ++ rest) in *.
  assert (Hmk' : Regex.lit_ci marker (mk ++ tail) = Some tail).
  { apply lit_ci_some_iff. now exists mk. }
  assert (Hcl : is_line_terminator c = false).
  { destruct (is_line_terminator c) eqn:E; [|reflexivity].
    apply line_terminator_is_space in E. congruence. }
  assert (Hsec : Regex.search cad_section_at (pre ++ mk ++ tail)
                 = Some (pre, (c :: body, rest))).
  { apply search_first.
    - intros a b E Hb. unfold cad_section_at.
      now rewrite (@marker_not_before pre mk tail a b Hpre Hmk E Hb).
    - unfold cad_section_at. rewrite Hmk'. unfold tail.
      apply (space_star_greedy Regex.dot_plus (lt :: blanks)).
      + simpl. now rewrite (line_terminator_is_space lt Hlt).
      + exact Hc.
      + apply (dot_plus_line (run := c :: body));
          [discriminate | simpl; now rewrite Hcl | exact Hrest]. }
  assert (Hrep : Regex.search cad_line_at (pre ++ mk ++ tail) = None).
  { apply search_none_iff. intros p post E. unfold cad_line_at.
    destruct (Regex.lit_ci marker post) as [r|] eqn:Hl; [|reflexivity].
    pose proof (@marker_only_here pre mk tail p post r Hpre Htail Hmk E Hl) as ->.
    apply app_inv_head in E. subst post. rewrite Hmk' in Hl.
    injection Hl as <-. unfold tail, Regex.dot_plus. simpl. now rewrite Hlt. }
  unfold callGemini, callGemini_try. rewrite Hgem.
  unfold cadSection, replace_cad_line. rewrite Hsec, Hrep. reflexivity.
Qed.

Lemma callGemini_directive_on_later_line_witness :
  callGemini
    (fun _ => GeminiText (str "Gears mesh." ++ [LF] ++ str "CAD_PROMPT:"
                          ++ [LF] ++ str "two gears"))
    (str "gears")
  = mkGuidance (str "Gears mesh." ++ [LF] ++ str "CAD_PROMPT:"
                ++ [LF] ++ str "two gears")
               (str "two gears").
Proof.
  apply (@callGemini_directive_on_later_line
           (fun _ => GeminiText (str "Gears mesh." ++ [LF] ++ str "CAD_PROMPT:"
                                 ++ [LF] ++ str "two gears"))
           (str "gears") (str "Gears mesh." ++ [LF]) (str "CAD_PROMPT:")
           LF [] "t"%char (str "wo gears") []);
    try reflexivity; apply absent_by_search; reflexivity.
Defined.

(** ** More on the catalogue and the mesh backend *)

(** The catalogue answers with one of two meshes.  It answers the default
    quad exactly when no keyword occurs in the prompt; when a keyword
    occurs, the mesh it answers has no point and no triangle. *)
Theorem mockCadData_two_answers (s : jsstring) :
  ((exists k, In k (map fst models) /\ occurs_any_case k s) <->
   mockCadData (Some s) = inl (mkMesh [] []))
  /\ ((forall k, In k (map fst models) -> ~ occurs_any_case k s) <->
      mockCadData (Some s) = inl default_quad).
Proof.
  rewrite mockCadData_of_string.
  pose proof (@occurs_any_case_lower (str "camera") s eq_refl) as Hc.
  pose proof (@occurs_any_case_lower (str "transistor") s eq_refl) as Ht.
  destruct (includes (toLowerCase s) (str "camera")) eqn:Ec;
    [|destruct (includes (toLowerCase s) (str "transistor")) eqn:Et].
  - split; split; try discriminate.
    + reflexivity.
    + intros _. exists (str "camera"). split; [simpl; auto | now apply Hc].
    + intros H. elim (H (str "camera")); [simpl; auto | now apply Hc].
  - split; split; try discriminate.
    + reflexivity.
    + intros _. exists (str "transistor"). split; [simpl; auto | now apply Ht].
    + intros H. elim (H (str "transistor")); [simpl; auto | now apply Ht].
  - assert (Hnone : forall k, In k (map fst models) -> ~ occurs_any_case k s).
    { intros k [<-|[<-|[]]] Hocc.
      - apply Hc in Hocc. discriminate.
      - apply Ht in Hocc. discriminate. }
    split; split; try discriminate; try reflexivity.
    + intros (k & Hin & Hocc). now elim (Hnone k).
    + intros _. exact Hnone.
Qed.

(** [callZooCAD] answers a mesh exactly when the body carries an array
    under [model.mesh.vertices] and an array under [model.mesh.faces]; the
    mesh is the one-level flattening of the two arrays.  A body without a
    face array is a failure, like a body without vertices. *)
Theorem callZooCAD_needs_both_arrays
    (zoo : mesh_backend) (prompt : jsstring) (data : json) :
  zoo prompt = AxiosResolved data ->
  (forall mesh,
      callZooCAD zoo prompt = Some mesh <->
      exists vrows frows,
        vertices_of data = Some (JArr vrows)
        /\ faces_of data = Some (JArr frows)
        /\ mesh = mkMesh (flat_map flat_item vrows) (flat_map flat_item frows))
  /\ ((forall frows, faces_of data <> Some (JArr frows)) ->
      callZooCAD zoo prompt = None).
Proof.
  intros Hz. rewrite (callZooCAD_resolved zoo prompt Hz). split.
  - intros mesh. split.
    + destruct (vertices_of data) as [[| | | |vrows|]|]; try discriminate.
      destruct (faces_of data) as [[| | | |frows|]|]; try discriminate.
      intros [= <-]. now exists vrows, frows.
    + intros (vrows & frows & -> & -> & ->). reflexivity.
  - intros Hf.
    destruct (vertices_of data) as [[| | | |vrows|]|]; try reflexivity.
    destruct (faces_of data) as [[| | | |frows|]|]; try reflexivity.
    now elim (Hf frows).
Qed.

Lemma callZooCAD_needs_both_arrays_witness :
  callZooCAD
    (fun _ => AxiosResolved
                (JObj [(str "model",
                        JObj [(str "mesh",
                               JObj [(str "vertices",
                                      JArr [JArr [JNum 0; JNum 0; JNum 0]])])])]))
    (str "a point")
  = None.
Proof.
  apply (proj2 (@callZooCAD_needs_both_arrays
                  (fun _ => AxiosResolved
                     (JObj [(str "model",
                             JObj [(str "mesh",
                                    JObj [(str "vertices",
                                           JArr [JArr [JNum 0; JNum 0; JNum 0]])])])]))
                  (str "a point") _ eq_refl)).
  intros frows. vm_compute. discriminate.
Defined.

Lemma flat_scalars (items : list json) :
  forallb is_scalar items = true -> flat_map flat_item items = items.
Proof.
  induction items as [|v items IH]; simpl; [reflexivity|].
  intros H. apply andb_true_iff in H as [Hv Hi].
  rewrite (IH Hi). now destruct v.
Qed.

(** A body whose two buffers are already flat (no array among their
    items) comes back with the same buffers. *)
Theorem callZooCAD_flat_buffers_unchanged
    (zoo : mesh_backend) (prompt : jsstring) (data : json)
    (vs fs : list json) :
  zoo prompt = AxiosResolved data ->
  vertices_of data = Some (JArr vs) ->
  faces_of data = Some (JArr fs) ->
  forallb is_scalar vs = true ->
  forallb is_scalar fs = true ->
  callZooCAD zoo prompt = Some (mkMesh vs fs).
Proof.
  intros Hz Hv Hf Hvs Hfs.
  rewrite (callZooCAD_resolved zoo prompt Hz), Hv, Hf.
  now rewrite (flat_scalars vs Hvs), (flat_scalars fs Hfs).
Qed.

Lemma callZooCAD_flat_buffers_unchanged_witness :
  callZooCAD
    (fun _ => AxiosResolved
                (mesh_body (JArr (vertices default_quad))
                           (JArr (indices default_quad))))
    (str "a quad")
  = Some default_quad.
Proof.
  apply (@callZooCAD_flat_buffers_unchanged
           (fun _ => AxiosResolved
                       (mesh_body (JArr (vertices default_quad))
                                  (JArr (indices default_quad))))
           (str "a quad")
           (mesh_body (JArr (vertices default_quad)) (JArr (indices default_quad)))
           (vertices default_quad) (indices default_quad));
    reflexivity.
Defined.

(** ** More on the [mentor_query] handler *)

Lemma jsstring_eqb_eq (a b : jsstring) : jsstring_eqb a b = true <-> a = b.
Proof.
  revert b. induction a as [|c a IH]; intros [|d b]; simpl;
    try (split; [discriminate | discriminate]); [now split|].
  rewrite andb_true_iff, IH. split.
  - intros [Hc ->]. apply Ascii.eqb_eq in Hc. now subst.
  - intros [= -> ->]. split; [apply Ascii.eqb_refl | reflexivity].
Qed.

(** The handler emits at most one message.  It emits one exactly when
    [USE_REAL_CAD] is the string ['true'], letter for letter, and the mesh
    backend answers a mesh for the directive; the message then carries
    the guidance of [callGemini] and that mesh.  The "System error"
    message of the [catch] block is never sent. *)
Theorem mentor_query_emits_iff
    (USE_REAL_CAD : option jsstring)
    (gem : text_backend) (zoo : mesh_backend) (query : jsstring)
    (msg : emitted) :
  length (fst (mentor_query USE_REAL_CAD gem zoo query)) <= 1
  /\ (In msg (fst (mentor_query USE_REAL_CAD gem zoo query)) <->
      exists mesh,
        USE_REAL_CAD = Some (str "true")
        /\ callZooCAD zoo (cadPrompt (callGemini gem query)) = Some mesh
        /\ msg = mentor_response (guidance (callGemini gem query)) mesh).
Proof.
  rewrite mentor_query_outcome.
  destruct (use_real_cad USE_REAL_CAD) eqn:Hu.
  - assert (HU : USE_REAL_CAD = Some (str "true")).
    { destruct USE_REAL_CAD as [v|]; [|discriminate].
      simpl in Hu. apply jsstring_eqb_eq in Hu. now subst. }
    destruct (callZooCAD zoo (cadPrompt (callGemini gem query))) as [mesh|];
      simpl; (split; [lia|]).
    + split.
      * intros [<-|[]]. now exists mesh.
      * intros (mesh' & _ & [= <-] & ->). now left.
    + split; [intros [] | intros (mesh' & _ & Hm & _); discriminate].
  - simpl. split; [lia|]. split; [intros []|].
    intros (mesh & -> & _). vm_compute in Hu. discriminate.
Qed.

(** A failure of the text backend does not stop the live mesh: in live
    mode the mesh backend is asked for "Educational model for: " followed
    by the query, and when it answers a mesh the one message emitted
    carries the apology with that mesh. *)
Theorem mentor_query_text_failure_live_mesh
    (gem : text_backend) (zoo : mesh_backend) (query : jsstring)
    (e : js_error) (mesh : Mesh) :
  gem (instruction query) = GeminiRejected e ->
  callZooCAD zoo (str "Educational model for: " ++ query) = Some mesh ->
  mentor_query (Some (str "true")) gem zoo query
  = ([mentor_response
        (str "I'm having trouble visualizing that. Let me try again...") mesh],
     ret tt).
Proof.
  intros Hgem Hmesh. rewrite mentor_query_outcome. simpl use_real_cad.
  assert (Hg : callGemini gem query
               = mkGuidance
                   (str "I'm having trouble visualizing that. Let me try again...")
                   (str "Educational model for: " ++ query)).
  { unfold callGemini, callGemini_try. now rewrite Hgem. }
  rewrite Hg. cbn [cadPrompt guidance]. now rewrite Hmesh.
Qed.

Lemma mentor_query_text_failure_live_mesh_witness :
  mentor_query (Some (str "true")) offline
    (fun _ => AxiosResolved zero_based_triangle) (str "gears")
  = ([mentor_response
        (str "I'm having trouble visualizing that. Let me try again...")
        (mkMesh [JNum 0; JNum 0; JNum 0; JNum 1; JNum 0; JNum 0;
                 JNum 0; JNum 1; JNum 0]
                [JNum 0; JNum 1; JNum 2])],
     ret tt).
Proof.
  apply (@mentor_query_text_failure_live_mesh offline
           (fun _ => AxiosResolved zero_based_triangle) (str "gears")
           (Error (str "fetch failed"))); reflexivity.
Defined.

(** ** The client and the server together *)

(** While [USE_REAL_CAD] is not ['true'], no mentor query changes what the
    client shows: after any number of queries the mentor pane still reads
    its initial message and the viewer still has no model. *)
Theorem client_unchanged_in_mock_mode
    (USE_REAL_CAD : option jsstring)
    (gem : text_backend) (zoo : mesh_backend)
    (st : Client.state) (queries : list jsstring) :
  use_real_cad USE_REAL_CAD = false ->
  fold_left (Client.ask USE_REAL_CAD gem zoo) queries st = st.
Proof.
  intros Hmock. induction queries as [|q queries IH]; [reflexivity|].
  simpl. unfold Client.ask at 2. rewrite mentor_query_outcome, Hmock.
  exact IH.
Qed.

Lemma client_unchanged_in_mock_mode_witness :
  fold_left (Client.ask None (fun _ => GeminiText gears_text)
               (fun _ => AxiosResolved zero_based_triangle))
    [str "gears"; str "a camera"] Client.initial
  = Client.initial.
Proof.
  apply (client_unchanged_in_mock_mode None (fun _ => GeminiText gears_text)
           (fun _ => AxiosResolved zero_based_triangle) Client.initial
           [str "gears"; str "a camera"]).
  reflexivity.
Defined.

(** ** A response that is only a marker line *)

Lemma trimStart_all_space (s : jsstring) :
  forallb is_space s = true -> trimStart s = [].
Proof.
  induction s as [|c s IH]; simpl; [reflexivity|].
  intros H. apply andb_true_iff in H as [Hc Hs]. now rewrite Hc, (IH Hs).
Qed.

Lemma trim_all_space (s : jsstring) :
  forallb is_space s = true -> trim s = [].
Proof.
  intros H. unfold trim. now rewrite (trimStart_all_space s H).
Qed.

Lemma canon_not_space (c : ascii) : is_space c = true -> canon c = c.
Proof.
  destruct c as [[] [] [] [] [] [] [] []]; vm_compute; intros H;
    try reflexivity; discriminate H.
Qed.

(** White space holds no marker. *)
Lemma all_space_no_marker (s : jsstring) :
  forallb is_space s = true -> ~ occurs_any_case marker s.
Proof.
  intros Hs (pre & mid & post & -> & Hm).
  apply map_canon_eq_iff in Hm. rewrite map_canon_marker in Hm.
  rewrite !forallb_app in Hs.
  apply andb_true_iff in Hs as [_ Hs]. apply andb_true_iff in Hs as [Hmid _].
  destruct mid as [|m0 mid]; [discriminate Hm|].
  simpl in Hm, Hmid. apply andb_true_iff in Hmid as [H0 _].
  injection Hm as Hc _. rewrite (canon_not_space m0 H0) in Hc.
  subst m0. vm_compute in H0. discriminate.
Qed.

(** The two searches on a text whose first marker is followed, on its
    line, by blanks and a text that begins with a character other than
    white space. *)
Lemma marker_line_searches (pre mk blanks : jsstring) (c : ascii)
    (body rest : jsstring) :
  ~ occurs_any_case marker pre ->
  toLowerCase mk = toLowerCase marker ->
  forallb is_blank blanks = true ->
  is_space c = false ->
  on_one_line body = true ->
  at_line_end rest = true ->
  cadSection (pre ++ mk ++ blanks ++ (c :: body) ++ rest) = Some (c :: body)
  /\ replace_cad_line (pre ++ mk ++ blanks ++ (c :: body) ++ rest) = pre ++ rest.
Proof.
  intros Hfree Hmk Hblanks Hc Hbody Hrest.
  apply map_canon_eq_iff in Hmk.
  assert (Hlt : is_line_terminator c = false).
  { destruct (is_line_terminator c) eqn:E; [|reflexivity].
    apply line_terminator_is_space in E. congruence. }
  assert (Hsp : forallb is_space blanks = true /\ on_one_line blanks = true).
  { split; apply forallb_forall; intros w Hw;
      apply (proj1 (forallb_forall _ _) Hblanks) in Hw;
      now apply andb_true_iff in Hw. }
  destruct Hsp as [Hsp Hbl].
  assert (Hmk' : forall t, Regex.lit_ci marker (mk ++ t) = Some t).
  { intros t. apply lit_ci_some_iff. now exists mk. }
  unfold cadSection, replace_cad_line.
  rewrite (@search_first _ cad_section_at pre
             (mk ++ blanks ++ (c :: body) ++ rest) (c :: body, rest)).
  - rewrite (@search_first _ cad_line_at pre
               (mk ++ blanks ++ (c :: body) ++ rest) (blanks ++ c :: body, rest)).
    + now split.
    + intros a b E Hb. unfold cad_line_at.
      now rewrite (@marker_not_before pre mk (blanks ++ (c :: body) ++ rest)
                     a b Hfree Hmk E Hb).
    + unfold cad_line_at. rewrite Hmk', app_assoc.
      apply dot_plus_line; [now destruct blanks | | exact Hrest].
      unfold on_one_line in *. rewrite forallb_app, Hbl. simpl.
      now rewrite Hlt.
  - intros a b E Hb. unfold cad_section_at.
    now rewrite (@marker_not_before pre mk (blanks ++ (c :: body) ++ rest)
                   a b Hfree Hmk E Hb).
  - unfold cad_section_at. rewrite Hmk'.
    apply space_star_greedy; [exact Hsp | exact Hc |].
    apply (dot_plus_line (run := c :: body));
      [discriminate | simpl; now rewrite Hlt | exact Hrest].
Qed.

(** The guidance can be empty: when the response is nothing but a marker
    line, with white space at most before the marker and after the line,
    the guidance is the empty string while the directive is the text of
    the line. *)
Theorem callGemini_marker_line_alone
    (gem : text_backend) (query pre mk blanks : jsstring) (c : ascii)
    (body rest : jsstring) :
  gem (instruction query)
  = GeminiText (pre ++ mk ++ blanks ++ (c :: body) ++ rest) ->
  forallb is_space pre = true ->
  toLowerCase mk = toLowerCase marker ->
  forallb is_blank blanks = true ->
  is_space c = false ->
  on_one_line body = true ->
  at_line_end rest = true ->
  forallb is_space rest = true ->
  callGemini gem query = mkGuidance [] (c :: body).
Proof.
  intros Hgem Hpre Hmk Hblanks Hc Hbody Hrest Hsp.
  destruct (@marker_line_searches pre mk blanks c body rest
              (@all_space_no_marker pre Hpre) Hmk Hblanks Hc Hbody Hrest)
    as [Hsec Hrep].
  unfold callGemini, callGemini_try. rewrite Hgem, Hsec, Hrep.
  rewrite trim_all_space; [reflexivity|].
  rewrite forallb_app. now rewrite Hpre, Hsp.
Qed.

Lemma callGemini_marker_line_alone_witness :
  callGemini (fun _ => GeminiText (str " CAD_PROMPT: two gears" ++ [LF]))
    (str "gears")
  = mkGuidance [] (str "two gears").
Proof.
  apply (@callGemini_marker_line_alone
           (fun _ => GeminiText (str " CAD_PROMPT: two gears" ++ [LF]))
           (str "gears") (str " ") (str "CAD_PROMPT:") (str " ")
           "t"%char (str "wo gears") [LF]); reflexivity.
Defined.
